(** * Plan / execute / replan orchestration graph of [agent.py]

    A shallow embedding of the five-field session [State], the four node
    functions ([supervisor], [human_input], [agent_executor], [replanner]),
    the routing predicate [should_end] and the graph wired by [builder].

    The language model, the three remote graphs and the human behind
    [interrupt] are external: a node is a finite tree of calls to them
    ([Prog]), and a session is run against an arbitrary handler of those
    calls. *)

From stdpp Require Import base list strings pretty relations.

Open Scope string_scope.

(** ** Data model *)

(** [class Step(BaseModel)]. The [Literal] annotation of [subagent] is a
    validation rule of the schema; the node code compares plain strings. *)
Record Step := { description : string; subagent : string }.

(** [class Response(BaseModel)] *)
Record Response := { Response_response : string }.

(** [class Plan(BaseModel)] *)
Record Plan := { steps : list Step }.

(** [class PlanWithUserInput(BaseModel)] *)
Record PlanWithUserInput :=
  { PlanWithUserInput_steps : list Step; updated_objective : string }.

(** [action: Union[Response, Plan]]; [isinstance(result.action, Response)]
    is the case distinction. *)
Inductive ResponseOrPlan :=
| isResponse (r : Response)
| isPlan (p : Plan).

(** [class ReplannerResponse(BaseModel)] *)
Record ReplannerResponse := { action : ResponseOrPlan }.

(** A conversation entry: [msg_type] is [None] when the object has no
    attribute [type] (the [hasattr] test of [supervisor]). *)
Record Message := { msg_type : option string; content : string }.

Definition SystemMessage (c : string) : Message :=
  {| msg_type := Some "system"; content := c |}.
Definition HumanMessage (c : string) : Message :=
  {| msg_type := Some "human"; content := c |}.

(** An entry of [past_steps]: the pair built at the end of
    [agent_executor]. *)
Definition ExecutionRecord : Type := string * string.

(** An entry of the history a remote graph returns: a dictionary, read
    only through the key ["content"]. *)
Definition RemoteEntry : Type := list (string * string).

(** [class State(TypedDict)]. The three plain keys are absent until some
    node writes them; the two keys annotated with a reducer start as the
    empty list. *)
Record State := {
  original_objective : option string;
  action_plan : option (list Step);
  messages : list Message;
  past_steps : list ExecutionRecord;
  response : option string
}.

(** The dictionary a node returns: only the keys it lists are present. *)
Record Update := {
  u_original_objective : option string;
  u_action_plan : option (list Step);
  u_messages : option (list Message);
  u_past_steps : option (list ExecutionRecord);
  u_response : option string
}.

Definition no_keys : Update :=
  {| u_original_objective := None; u_action_plan := None; u_messages := None;
     u_past_steps := None; u_response := None |}.

(** ** Errors and external calls *)

Inductive PyError :=
| KeyError (key : string)
| IndexError
| UnboundLocalError (name : string)
| ExternalError.

(** The spec's section 7 names a dedicated error for a capability tag
    without registry entry; [agent.py] defines no such exception class.
    [ErrorKind] classifies what the code raises, so that the two can be
    compared. *)
Inductive ErrorKind :=
| K_UnknownCapabilityError
| K_RemoteDispatchError
| K_Other.

Definition error_kind (e : PyError) : ErrorKind :=
  match e with
  | ExternalError => K_RemoteDispatchError
  | KeyError _ | IndexError | UnboundLocalError _ => K_Other
  end.

Inductive RemoteGraph :=
| customer_information_remote_graph
| music_catalog_information_remote_graph
| invoice_information_remote_graph.

(** The calls that leave the process, indexed by the type of their
    answer. *)
Inductive Event : Type -> Type :=
| invoke_Plan (msgs : list Message) : Event Plan
| invoke_PlanWithUserInput (msgs : list Message) : Event PlanWithUserInput
| invoke_ReplannerResponse (msgs : list Message) : Event ReplannerResponse
| remote_invoke (g : RemoteGraph) (msgs : list Message) : Event (list RemoteEntry)
| interrupt (plan_to_edit : list Step) : Event string.

Inductive Prog (A : Type) : Type :=
| Ret (a : A)
| Raise (e : PyError)
| Vis {X : Type} (ev : Event X) (k : X -> Prog A).

Arguments Ret {A} a.
Arguments Raise {A} e.
Arguments Vis {A X} ev k.

Fixpoint bind {A B : Type} (p : Prog A) (f : A -> Prog B) : Prog B :=
  match p with
  | Ret a => f a
  | Raise e => Raise e
  | Vis ev k => Vis ev (fun x => bind (k x) f)
  end.

Definition trigger {X : Type} (ev : Event X) : Prog X := Vis ev Ret.

Notation "x <- c ;; k" := (bind c (fun x => k))
  (at level 100, c at next level, right associativity).

(** The calls a program makes when its answers are drawn from [pick]. *)
Inductive AnyEvent : Type :=
| any_event (X : Type) (ev : Event X).

Arguments any_event {X} ev.

Fixpoint calls {A : Type} (pick : forall X, Event X -> X) (p : Prog A)
  : list AnyEvent :=
  match p with
  | Ret _ | Raise _ => []
  | Vis ev k => any_event ev :: calls pick (k (pick _ ev))
  end.

(** ** Python primitives used by the nodes *)

Definition LF : string := String (Ascii.ascii_of_nat 10) EmptyString.

(** [state[key]] on a key that may be absent. *)
Definition getitem {A : Type} (key : string) (slot : option A) : Prog A :=
  match slot with
  | Some v => Ret v
  | None => Raise (KeyError key)
  end.

(** [l[i]] for a non-negative [i]. *)
Definition index {A : Type} (l : list A) (i : nat) : Prog A :=
  match l !! i with
  | Some v => Ret v
  | None => Raise IndexError
  end.

(** [l[-1]] *)
Definition index_last {A : Type} (l : list A) : Prog A :=
  match last l with
  | Some v => Ret v
  | None => Raise IndexError
  end.

(** [l[-3:]] *)
Definition last_three {A : Type} (l : list A) : list A :=
  drop (length l - 3) l.

(** [d[key]] on a dictionary given as its items. *)
Fixpoint dict_get (d : list (string * string)) (key : string) : option string :=
  match d with
  | [] => None
  | (k, v) :: rest => if String.eqb k key then Some v else dict_get rest key
  end.

Definition dict_getitem (d : list (string * string)) (key : string) : Prog string :=
  match dict_get d key with
  | Some v => Ret v
  | None => Raise (KeyError key)
  end.

(** ** Prompts *)

Definition supervisor_prompt : string :=
  "You are an expert customer support assistant for a digital music store. You are dedicated to providing exceptional service and ensuring customer queries are answered thoroughly. You have a team of subagents that you can use to help answer queries from customers. Your primary role is to serve as a supervisor/planner for this multi-agent team that helps answer queries from customers. 
The multi-agent team you are supervising is responsible for handling questions related to the digital music store's music catalog (albums, tracks, songs, etc.), information about a customer's account (name, email, phone number, address, etc.), and information about a customer's past purchases or invoices. Your team is composed of three subagents that you can use to help answer the customer's request:

1. customer_information_subagent: this subagent is able to retrieve and update the personal information associated with a customer's account in the database (specifically, viewing or updating a customer's name, address, phone number, or email).
2. music_catalog_information_subagent: this subagent is able to retrieve information about the digital music store's music catalog (albums, tracks, songs, etc.) from the database.
3. invoice_information_subagent: this subagent is able to retrieve information about a customer's past purchases or invoices from the database.

Your role is to create an action plan that the subagents can follow and execute to thoroughly answer the customer's request. Your action plan should specify the exact steps that should be followed by the subagent(s) in order to successfully answer the customer's request, and which subagent should perform each step. Return the action plan as a list of objects, where each object contains the following fields:
- step: a detailed step that should be followed by the subagent(s) in order to successfully answer a portion of the customer's request.
- subagent_to_perform_step: the subagent that should perform the step.

Return the action plan in chronological order, starting with the first step to be performed, and ending with the last step to be performed. You should try your best not to have multiple steps performed by the same subagent. This is inefficient. If you need a subagent to perform a task, try and group it all into one step.

If you do not need a subagent to answer the customer's request, do not include it in the action plan/list of steps. Your goal is to be as efficient as possible, while ensuring that the customer's request is answered thoroughly. Take a deep breath and think carefully before responding. Go forth and make the customer delighted!
".

Definition replan_with_user_input_prompt (original_objective formatted_action_plan user_input : string) : string :=
  "You are an expert customer support assistant for a digital music store. You are dedicated to providing exceptional service and ensuring customer queries are answered thoroughly. You have a team of subagents that you can use to help answer queries from customers. Your primary role is to serve as a supervisor/planner for this multi-agent team that helps answer these queries from customers. 
The multi-agent team you are supervising is responsible for handling questions related to the digital music store's music catalog (albums, tracks, songs, etc.), information about a customer's account (name, email, phone number, address, etc.), and information about a customer's past purchases or invoices. Your team is composed of three subagents that you can use to help answer the customer's request:

1. customer_information_subagent: this subagent is able to retrieve and update the personal information associated with a customer's account in the database (specifically, viewing or updating a customer's name, address, phone number, or email).
2. music_catalog_information_subagent: this subagent is able to retrieve information about the digital music store's music catalog (albums, tracks, songs, etc.) from the database.
3. invoice_information_subagent: this subagent is able to retrieve information about a customer's past purchases or invoices from the database.

Before you, another supervisor/planner has already created an action plan for the subagents to follow. This action plan was then shown to the customer so they could provide feedback and ideas for improvement. 

Your job is to take the customer's feedback and update the action plan and their original request/objective accordingly. Below, I have attached the previous action plan, the customer's original request/objective that the action plan was created for, and the feedback/ideas for improvement from the customer.

Please take this feedback and construct a new action plan/original objective that the subagents can follow to thoroughly answer the customer's request. If the feedback is not relevant or nonsensical, you can ignore it, and keep the original action plan/original objective.

The updated action plan should specify the exact steps that should be followed by the subagent(s) in order to successfully answer the customer's request, and which subagent should perform each step. Return the action plan as a list of objects, where each object contains the following fields:
- step: a detailed step that should be followed by the subagent(s) in order to successfully answer a portion of the customer's request.
- subagent_to_perform_step: the subagent that should perform the step.

The updated objective should be a detailed description of the customer's request/objective, after taking into account the customer's feedback/ideas for improvement.

Return the action plan in chronological order, starting with the first step to be performed, and ending with the last step to be performed. You should try your best not to have multiple steps performed by the same subagent. This is inefficient. If you need a subagent to perform a task, try and group it all into one step.

If you do not need a subagent to answer the customer's request, do not include it in the action plan/list of steps. Your goal is to be as efficient as possible, while ensuring that the customer's request is answered thoroughly and to the best of your ability.

Use the information below to update the action plan and customer's objective based on their feedback/ideas for improvement.

*IMPORTANT INFORMATION BELOW*

Your original objective/request from the customer was this:
"
  +:+ original_objective
  +:+ "

The original action plan constructed by the previous supervisor/planner was this:
"
  +:+ formatted_action_plan
  +:+ "

The customer's feedback/ideas for improvement are as follows:
"
  +:+ user_input
  +:+ "
".

Definition replanner_prompt (original_objective formatted_action_plan formatted_steps : string) : string :=
  "You are an expert customer support assistant for a digital music store. You are dedicated to providing exceptional service and ensuring customer queries are answered thoroughly. You have a team of subagents that you can use to help answer queries from customers. Your primary role is to serve as a supervisor/planner for this multi-agent team that helps answer these queries from customers. 
The multi-agent team you are supervising is responsible for handling questions related to the digital music store's music catalog (albums, tracks, songs, etc.), information about a customer's account (name, email, phone number, address, etc.), and information about a customer's past purchases or invoices. Your team is composed of three subagents that you can use to help answer the customer's request:

1. customer_information_subagent: this subagent is able to retrieve and update the personal information associated with a customer's account in the database (specifically, viewing or updating a customer's name, address, phone number, or email).
2. music_catalog_information_subagent: this subagent is able to retrieve information about the digital music store's music catalog (albums, tracks, songs, etc.) from the database.
3. invoice_information_subagent: this subagent is able to retrieve information about a customer's past purchases or invoices from the database.

Before you, another supervisor/planner has already created an action plan for the subagents to follow. I've attached the previous action plan, the customer's original request, and the steps that have already been executed by the subagents below. You should take this information and either update the plan, or return Response if you believe the customer's request has been answered thoroughly and you no longer need to use the subagents to solve the problem.

If you decide to update the action plan, your action plan should specify the exact steps that should be followed by the subagent(s) in order to successfully answer the customer's request, and which subagent should perform each step. Return the action plan as a list of objects, where each object contains the following fields:
- step: a detailed step that should be followed by the subagent(s) in order to successfully answer a portion of the customer's request.
- subagent_to_perform_step: the subagent that should perform the step.

Return the action plan in chronological order, starting with the first step to be performed, and ending with the last step to be performed. You should try your best not to have multiple steps performed by the same subagent. This is inefficient. If you need a subagent to perform a task, try and group it all into one step.

If you do not need a subagent to answer the customer's request, do not include it in the action plan/list of steps. Your goal is to be as efficient as possible, while ensuring that the customer's request is answered thoroughly and to the best of your ability.

Use the information below to either update the action plan, or return Response if you believe the customer's request has been answered thoroughly and you no longer need to use the subagents to solve the problem.

*IMPORTANT INFORMATION BELOW*

Your original objective/request from the customer was this:
"
  +:+ original_objective
  +:+ "

The original action plan constructed by the previous supervisor/planner was this:
"
  +:+ formatted_action_plan
  +:+ "

The subagents have already executed the following steps:
"
  +:+ formatted_steps
  +:+ "

If no more steps are needed and you are ready to respond to the customer, use Response. If you still need to use the subagents to solve the problem, construct and return a list of steps to be performed by the subagents using Plan.
".

(** The f-string [task_formatted_prompt] of [agent_executor]. *)
Definition task_formatted_prompt
  (total_plan first_task_subagent first_task_description : string) : string :=
  "For the following plan: " +:+ LF +:+ "    " +:+ total_plan +:+ LF
  +:+ "    You are tasked with executing the first step #1. "
  +:+ first_task_subagent +:+ " will: " +:+ first_task_description +:+ LF
  +:+ "    ".

(** ** Helpers *)

(** The loop of [format_steps], at index [i] of [enumerate(_, 1)], with
    [n = len(steps_list)]. *)
Fixpoint format_steps_loop (n i : nat) (rest : list ExecutionRecord)
  (formatted_output : string) : string :=
  match rest with
  | [] => formatted_output
  | step :: rest' =>
      let context_on_step := fst step in
      let result_of_step := snd step in
      let out := formatted_output +:+ "## Step " +:+ pretty i +:+ LF +:+ LF in
      let out := out +:+ "### Task Description" +:+ LF +:+ context_on_step +:+ LF +:+ LF in
      let out := out +:+ "### Result" +:+ LF
        +:+ "The following is the response returned after the subagent performed the task above:"
        +:+ LF +:+ LF in
      let out := out +:+ result_of_step +:+ LF +:+ LF in
      let out := if (i <? n)%nat then out +:+ "---" +:+ LF +:+ LF else out in
      format_steps_loop n (S i) rest' out
  end.

Definition format_steps (steps_list : list ExecutionRecord) : string :=
  format_steps_loop (length steps_list) 1 steps_list
    ("# STEPS ALREADY PERFORMED BY THE SUBAGENTS" +:+ LF +:+ LF).

Fixpoint format_action_plan_loop (n i : nat) (rest : list Step)
  (summary : string) : string :=
  match rest with
  | [] => summary
  | step :: rest' =>
      let task_description := description step in
      let subagent := subagent step in
      let out := summary +:+ "## Action " +:+ pretty i +:+ LF +:+ LF in
      let out := out +:+ "### Agent" +:+ LF +:+ subagent +:+ LF +:+ LF in
      let out := out +:+ "### Task" +:+ LF +:+ task_description +:+ LF +:+ LF in
      let out := if (i <? n)%nat then out +:+ "---" +:+ LF +:+ LF else out in
      format_action_plan_loop n (S i) rest' out
  end.

Definition format_action_plan (steps_list : list Step) : string :=
  format_action_plan_loop (length steps_list) 1 steps_list
    ("# ACTION PLAN FROM PREVIOUS SUPERVISOR/PLANNER" +:+ LF +:+ LF).

(** ** Nodes *)

(** [hasattr(msg, 'type') and msg.type in ["tool", "tool_call"]] *)
Definition is_tool_message (msg : Message) : bool :=
  match msg_type msg with
  | Some t => String.eqb t "tool" || String.eqb t "tool_call"
  | None => false
  end.

Definition supervisor (state : State) : Prog (option Update) :=
  first_message <- index_last (messages state) ;;
  let filtered_messages :=
    List.filter (fun msg => negb (is_tool_message msg))
      (last_three (messages state)) in
  result <- trigger (invoke_Plan ([SystemMessage supervisor_prompt] ++ filtered_messages)) ;;
  Ret (Some {| u_original_objective := Some (content first_message);
               u_action_plan := Some (steps result);
               u_messages := None; u_past_steps := None; u_response := None |}).

Definition human_input (state : State) : Prog (option Update) :=
  plan_to_edit <- getitem "action_plan" (action_plan state) ;;
  user_input <- trigger (interrupt plan_to_edit) ;;
  original_objective <- getitem "original_objective" (original_objective state) ;;
  plan <- getitem "action_plan" (action_plan state) ;;
  let formatted_action_plan := format_action_plan plan in
  if negb (String.eqb user_input "") then
    result <- trigger (invoke_PlanWithUserInput
      [SystemMessage (replan_with_user_input_prompt
                        original_objective formatted_action_plan user_input)]) ;;
    Ret (Some {| u_original_objective := Some (updated_objective result);
                 u_action_plan := Some (PlanWithUserInput_steps result);
                 u_messages := None; u_past_steps := None; u_response := None |})
  else
    Ret None.

(** One line of [total_plan]: [f"{i+1}. {step.subagent} will: {step.description}"]. *)
Definition plan_line (i : nat) (step : Step) : string :=
  pretty (i + 1)%nat +:+ ". " +:+ subagent step +:+ " will: " +:+ description step.

(** One branch of the [if]/[elif] chain: the remote call and the content
    of the last entry of the history it returns. *)
Definition ask (g : RemoteGraph) (task_formatted_prompt : string) : Prog string :=
  response <- trigger (remote_invoke g [HumanMessage task_formatted_prompt]) ;;
  last_entry <- index_last response ;;
  dict_getitem last_entry "content".

(** The local [final_response] is bound only inside the three branches:
    [None] stands for the name being unbound when the [return] reads it. *)
Definition agent_executor (state : State) : Prog (option Update) :=
  plan <- getitem "action_plan" (action_plan state) ;;
  _ <- getitem "original_objective" (original_objective state) ;;
  let total_plan := String.concat LF (imap plan_line plan) in
  first <- index plan 0 ;;
  let first_task_subagent := subagent first in
  let first_task_description := description first in
  let first_task_subagent_response :=
    first_task_subagent
    +:+ " executed logic to answer the following request from the planner/supervisor: "
    +:+ first_task_description in
  let task_formatted_prompt :=
    task_formatted_prompt total_plan first_task_subagent first_task_description in
  final_response <-
    (if String.eqb first_task_subagent "customer_information_subagent" then
       r <- ask customer_information_remote_graph task_formatted_prompt ;; Ret (Some r)
     else if String.eqb first_task_subagent "music_catalog_information_subagent" then
       r <- ask music_catalog_information_remote_graph task_formatted_prompt ;; Ret (Some r)
     else if String.eqb first_task_subagent "invoice_information_subagent" then
       r <- ask invoice_information_remote_graph task_formatted_prompt ;; Ret (Some r)
     else Ret None) ;;
  match final_response with
  | Some final_response =>
      Ret (Some {| u_original_objective := None; u_action_plan := None;
                   u_messages := None;
                   u_past_steps := Some [(first_task_subagent_response, final_response)];
                   u_response := None |})
  | None => Raise (UnboundLocalError "final_response")
  end.

Definition replanner (state : State) : Prog (option Update) :=
  original_objective <- getitem "original_objective" (original_objective state) ;;
  previous_action_plan <- getitem "action_plan" (action_plan state) ;;
  let previous_steps := past_steps state in
  let formatted_action_plan := format_action_plan previous_action_plan in
  let formatted_steps := format_steps previous_steps in
  result <- trigger (invoke_ReplannerResponse
    [SystemMessage (replanner_prompt original_objective formatted_action_plan formatted_steps)]) ;;
  match action result with
  | isResponse r =>
      Ret (Some {| u_original_objective := None; u_action_plan := None;
                   u_messages := None; u_past_steps := None;
                   u_response := Some (Response_response r) |})
  | isPlan p =>
      Ret (Some {| u_original_objective := None; u_action_plan := Some (steps p);
                   u_messages := None; u_past_steps := None;
                   u_response := None |})
  end.

(** ** The graph *)

Inductive Node :=
| START
| N_supervisor
| N_agent_executor
| N_replanner
| N_human_input
| END.

Global Instance Node_eq_dec : EqDecision Node.
Proof. solve_decision. Defined.

(** [if "response" in state and state["response"]]: a string is true
    when it is not empty. *)
Definition should_end (state : State) : Node :=
  match response state with
  | Some r => if negb (String.eqb r "") then END else N_agent_executor
  | None => N_agent_executor
  end.

(** [builder.add_node] *)
Definition nodes : list (Node * (State -> Prog (option Update))) :=
  [ (N_supervisor, supervisor);
    (N_agent_executor, agent_executor);
    (N_replanner, replanner);
    (N_human_input, human_input) ].

(** [builder.add_edge] *)
Definition edges : list (Node * Node) :=
  [ (START, N_supervisor);
    (N_supervisor, N_human_input);
    (N_human_input, N_agent_executor);
    (N_agent_executor, N_replanner) ].

(** [builder.add_conditional_edges]: source, router, declared targets. *)
Definition conditional_edges : list (Node * (State -> Node) * list Node) :=
  [ (N_replanner, should_end, [N_agent_executor; END]) ].

Fixpoint assoc {B : Type} (n : Node) (l : list (Node * B)) : option B :=
  match l with
  | [] => None
  | (m, b) :: rest => if decide (m = n) then Some b else assoc n rest
  end.

(** Where control goes after node [n] has finished in state [state]. *)
Definition next_node (n : Node) (state : State) : option Node :=
  match assoc n edges with
  | Some m => Some m
  | None =>
      match assoc n (List.map (fun '(src, path, _) => (src, path)) conditional_edges) with
      | Some path => Some (path state)
      | None => None
      end
  end.

(** The static edge relation: plain edges and the declared targets of
    the conditional ones. *)
Definition edge (a b : Node) : Prop :=
  (a, b) ∈ edges ∨ ∃ path targets, (a, path, targets) ∈ conditional_edges ∧ b ∈ targets.

(** ** Merging a node's return value into the state

    A key without annotation is overwritten; [past_steps] is annotated with
    [operator.add] and [messages] with [add_messages], which appends the
    entries it is given (no node of this graph returns the key). A node
    that returns [None] changes nothing. *)
Definition overwrite {A : Type} (old new : option A) : option A :=
  match new with
  | Some v => Some v
  | None => old
  end.

Definition operator_add {A : Type} (old : list A) (new : option (list A)) : list A :=
  match new with
  | Some l => old ++ l
  | None => old
  end.

Definition apply_update (state : State) (ret : option Update) : State :=
  match ret with
  | None => state
  | Some u =>
      {| original_objective := overwrite (original_objective state) (u_original_objective u);
         action_plan := overwrite (action_plan state) (u_action_plan u);
         messages := operator_add (messages state) (u_messages u);
         past_steps := operator_add (past_steps state) (u_past_steps u);
         response := overwrite (response state) (u_response u) |}
  end.

(** The state of a fresh session: [graph.stream(initial_input, ...)] with
    [initial_input = {"messages": [...]}]. *)
Definition initial_state (input_messages : list Message) : State :=
  {| original_objective := None; action_plan := None;
     messages := input_messages; past_steps := []; response := None |}.

(** ** Running a session *)

Section Session.

(** The outside world: its state and how it answers a call. An answer
    of [None] is the call raising. *)
Context {W : Type}.
Variable handler : forall X, Event X -> W -> option X * W.

Fixpoint interp {A : Type} (p : Prog A) (w : W) : (PyError + A) * W :=
  match p with
  | Ret a => (inr a, w)
  | Raise e => (inl e, w)
  | Vis ev k =>
      match handler _ ev w with
      | (Some x, w') => interp (k x) w'
      | (None, w') => (inl ExternalError, w')
      end
  end.

(** Control is about to enter [at_node] with state [state]. *)
Record Config := { at_node : Node; state : State; world : W }.

Inductive Outcome :=
| Next (c : Config) (ret : option Update)
| Failed (e : PyError) (w : W)
| Halted.

Definition graph_step (c : Config) : Outcome :=
  match at_node c with
  | END => Halted
  | START =>
      match next_node START (state c) with
      | Some m => Next {| at_node := m; state := state c; world := world c |} None
      | None => Halted
      end
  | n =>
      match assoc n nodes with
      | None => Halted
      | Some body =>
          match interp (body (state c)) (world c) with
          | (inl e, w') => Failed e w'
          | (inr ret, w') =>
              let state' := apply_update (state c) ret in
              match next_node n state' with
              | Some m => Next {| at_node := m; state := state'; world := w' |} ret
              | None => Halted
              end
          end
      end
  end.

(** [run c tr c']: from [c] the graph reaches [c'] after the completed
    node runs listed in [tr], oldest first, each with what it returned. *)
Inductive run (c : Config) : list (Node * option Update) -> Config -> Prop :=
| run_nil : run c [] c
| run_snoc tr c' c'' ret :
    run c tr c' ->
    graph_step c' = Next c'' ret ->
    run c (tr ++ [(at_node c', ret)]) c''.

(** The executable counterpart: at most [fuel] node runs. *)
Fixpoint run_for (fuel : nat) (c : Config) : list (Node * option Update) * Config :=
  match fuel with
  | O => ([], c)
  | S fuel' =>
      match graph_step c with
      | Next c' ret =>
          let '(tr, c'') := run_for fuel' c' in ((at_node c, ret) :: tr, c'')
      | _ => ([], c)
      end
  end.

Definition start (input_messages : list Message) (w : W) : Config :=
  {| at_node := START; state := initial_state input_messages; world := w |}.

End Session.

Arguments Config W : clear implicits.
Arguments Outcome W : clear implicits.

(** ** Auxiliary notions used by the statements *)

(** The three values the [Literal] annotation of [Step.subagent] admits. *)
Definition known_subagents : list string :=
  [ "customer_information_subagent";
    "music_catalog_information_subagent";
    "invoice_information_subagent" ].

(** The remote graph called by the branch of [agent_executor] that a tag
    selects, if any. *)
Definition registry_entry (tag : string) : option RemoteGraph :=
  if String.eqb tag "customer_information_subagent" then
    Some customer_information_remote_graph
  else if String.eqb tag "music_catalog_information_subagent" then
    Some music_catalog_information_remote_graph
  else if String.eqb tag "invoice_information_subagent" then
    Some invoice_information_remote_graph
  else None.

(** [returns_with ok p a]: [p] can finish with value [a] when every call
    is answered by some value that [ok] admits. *)
Fixpoint returns_with {A : Type} (ok : forall X, Event X -> X -> Prop)
  (p : Prog A) (a : A) : Prop :=
  match p with
  | Ret b => a = b
  | Raise _ => False
  | Vis ev k => exists x, ok _ ev x /\ returns_with ok (k x) a
  end.

Definition any_answer : forall X, Event X -> X -> Prop := fun _ _ _ => True.

(** Every plan the language model hands back has at least one step. *)
Definition plan_answer_nonempty : forall X, Event X -> X -> Prop :=
  fun X ev =>
    match ev in Event T return T -> Prop with
    | invoke_Plan _ => fun p => steps p <> []
    | invoke_PlanWithUserInput _ => fun p => PlanWithUserInput_steps p <> []
    | invoke_ReplannerResponse _ =>
        fun r => match action r with
                 | isPlan p => steps p <> []
                 | isResponse _ => True
                 end
    | remote_invoke _ _ => fun _ => True
    | interrupt _ => fun _ => True
    end.

(** A handler whose successful answers all satisfy [ok]. *)
Definition answers_satisfy {W : Type}
  (handler : forall X, Event X -> W -> option X * W)
  (ok : forall X, Event X -> X -> Prop) : Prop :=
  forall X (ev : Event X) w x w', handler X ev w = (Some x, w') -> ok X ev x.

(** [response] counts as set when the key is present with a non-empty
    string. *)
Definition response_set (st : State) : Prop :=
  exists r, response st = Some r /\ r <> "".

(** The two shapes of what [replanner] returns. *)
Definition sets_response (text : string) : Update :=
  {| u_original_objective := None; u_action_plan := None; u_messages := None;
     u_past_steps := None; u_response := Some text |}.

Definition replaces_action_plan (new_plan : list Step) : Update :=
  {| u_original_objective := None; u_action_plan := Some new_plan;
     u_messages := None; u_past_steps := None; u_response := None |}.

(** The update of a node that returns the single key [past_steps] with
    one record. *)
Definition one_past_step (rec : ExecutionRecord) : Update :=
  {| u_original_objective := None; u_action_plan := None; u_messages := None;
     u_past_steps := Some [rec]; u_response := None |}.

(** The records returned by the [agent_executor] runs of a trace, oldest
    first. *)
Definition executor_records (tr : list (Node * option Update)) : list ExecutionRecord :=
  flat_map (fun '(n, ret) =>
              if decide (n = N_agent_executor) then
                match ret with
                | Some u => default [] (u_past_steps u)
                | None => []
                end
              else []) tr.

(** The number of completed [agent_executor] runs of a trace. *)
Definition executor_runs (tr : list (Node * option Update)) : nat :=
  length (List.filter (fun e => bool_decide (e.1 = N_agent_executor)) tr).

(** [k] rounds of the loop. *)
Fixpoint loop_path (k : nat) : list Node :=
  match k with
  | O => []
  | S k' => N_agent_executor :: N_replanner :: loop_path k'
  end.

(** The path of a session that goes [k] times round the loop and ends. *)
Definition session_path (k : nat) : list Node :=
  [START; N_supervisor; N_human_input] ++ loop_path k ++ [END].

(** The nodes entered up to and including [n], when the loop has been
    gone round [k] times before. *)
Definition path_to (n : Node) (k : nat) : list Node :=
  match n with
  | START => [START]
  | N_supervisor => [START; N_supervisor]
  | N_human_input => [START; N_supervisor; N_human_input]
  | N_agent_executor =>
      [START; N_supervisor; N_human_input] ++ loop_path k ++ [N_agent_executor]
  | N_replanner => [START; N_supervisor; N_human_input] ++ loop_path (S k)
  | END => session_path (S k)
  end.

(** The position of a node in the fixed order of the graph. *)
Definition rank (n : Node) : nat :=
  match n with
  | START => 0
  | N_supervisor => 1
  | N_human_input => 2
  | N_agent_executor => 3
  | N_replanner => 3
  | END => 4
  end.

(** One block of [format_action_plan], for the step at position [j]
    (counted from 0) of the list. *)
Definition action_block (j : nat) (step : Step) : string :=
  "## Action " +:+ pretty (j + 1)%nat +:+ LF +:+ LF
  +:+ "### Agent" +:+ LF +:+ subagent step +:+ LF +:+ LF
  +:+ "### Task" +:+ LF +:+ description step +:+ LF +:+ LF.

(** One block of [format_steps], for the record at position [j]. *)
Definition step_block (j : nat) (step : ExecutionRecord) : string :=
  "## Step " +:+ pretty (j + 1)%nat +:+ LF +:+ LF
  +:+ "### Task Description" +:+ LF +:+ fst step +:+ LF +:+ LF
  +:+ "### Result" +:+ LF
  +:+ "The following is the response returned after the subagent performed the task above:"
  +:+ LF +:+ LF
  +:+ snd step +:+ LF +:+ LF.

(** The line the two formatters put between blocks. *)
Definition separator : string := "---" +:+ LF +:+ LF.

(** The summary half of a record of [past_steps]. *)
Definition first_task_subagent_response (first : Step) : string :=
  subagent first
  +:+ " executed logic to answer the following request from the planner/supervisor: "
  +:+ description first.

(** Collaborators that behave: every plan has a first step whose tag is
    one of the three, and every remote history ends in an entry with a
    ["content"] key. *)
Definition well_behaved : forall X, Event X -> X -> Prop :=
  fun X ev =>
    match ev in Event T return T -> Prop with
    | invoke_Plan _ =>
        fun p => exists first rest,
          steps p = first :: rest /\ subagent first ∈ known_subagents
    | invoke_PlanWithUserInput _ =>
        fun p => exists first rest,
          PlanWithUserInput_steps p = first :: rest /\ subagent first ∈ known_subagents
    | invoke_ReplannerResponse _ =>
        fun r => match action r with
                 | isPlan p => exists first rest,
                     steps p = first :: rest /\ subagent first ∈ known_subagents
                 | isResponse _ => True
                 end
    | remote_invoke _ _ =>
        fun history => exists entry text,
          last history = Some entry /\ dict_get entry "content" = Some text
    | interrupt _ => fun _ => True
    end.

(** A handler that answers every call. *)
Definition always_answers {W : Type}
  (handler : forall X, Event X -> W -> option X * W) : Prop :=
  forall X (ev : Event X) w, exists x w', handler X ev w = (Some x, w').

(** The number of completed runs of node [n] in a trace. *)
Definition node_runs (n : Node) (tr : list (Node * option Update)) : nat :=
  length (List.filter (fun e => bool_decide (e.1 = n)) tr).

(** The replanner is never given a final answer with a text in it. *)
Definition never_concludes : forall X, Event X -> X -> Prop :=
  fun X ev =>
    match ev in Event T return T -> Prop with
    | invoke_ReplannerResponse _ =>
        fun r => match action r with
                 | isResponse a => Response_response a = ""
                 | isPlan _ => True
                 end
    | _ => fun _ => True
    end.

(** ** Concrete sessions *)

Module Scenario.

Definition customer_step : Step :=
  {| description := "Look up the name on the account of customer 1";
     subagent := "customer_information_subagent" |}.
Definition invoice_step : Step :=
  {| description := "Find the most recent purchase of customer 1";
     subagent := "invoice_information_subagent" |}.
Definition catalog_step : Step :=
  {| description := "List the albums by U2 in the catalog";
     subagent := "music_catalog_information_subagent" |}.
Definition rogue_step : Step :=
  {| description := "Refund the last invoice"; subagent := "billing_subagent" |}.

Definition request : list Message :=
  [HumanMessage "my customer ID is 1. what is my name? also, whats my most recent purchase? and what albums does the catalog have by U2?"].

Definition remote_answer (g : RemoteGraph) : list RemoteEntry :=
  [ [("role", "user"); ("content", "task")];
    [("role", "assistant");
     ("content", match g with
                 | customer_information_remote_graph => "Luis"
                 | music_catalog_information_remote_graph => "War"
                 | invoice_information_remote_graph => "Invoice 382"
                 end)] ].

(** The world counts the decisions the replanner has taken. The human
    says [feedback]; the first plan is [first_plan]; the replanner
    first continues with [second_plan] and then answers. *)
Definition handler (feedback : string) (first_plan second_plan : list Step)
  : forall X, Event X -> nat -> option X * nat :=
  fun X ev =>
    match ev in Event T return nat -> option T * nat with
    | invoke_Plan _ => fun w => (Some {| steps := first_plan |}, w)
    | invoke_PlanWithUserInput _ =>
        fun w => (Some {| PlanWithUserInput_steps := customer_step :: first_plan;
                          updated_objective := "name, email, purchase and albums" |}, w)
    | invoke_ReplannerResponse _ =>
        fun w => (Some {| action :=
                           if Nat.eqb w 0 then isPlan {| steps := second_plan |}
                           else isResponse {| Response_response := "Luis; Invoice 382; War" |} |},
                  S w)
    | remote_invoke g _ => fun w => (Some (remote_answer g), w)
    | interrupt _ => fun w => (Some feedback, w)
    end.

(** The scenario of the spec: three steps, approval, one continuation
    with two steps, then the answer. *)
Definition approved : forall X, Event X -> nat -> option X * nat :=
  handler "" [customer_step; invoice_step; catalog_step] [invoice_step; catalog_step].

(** The model plans nothing at all. *)
Definition plans_nothing : forall X, Event X -> nat -> option X * nat :=
  handler "" [] [].

(** The replanner continues with a plan without steps. *)
Definition continues_with_nothing : forall X, Event X -> nat -> option X * nat :=
  handler "" [customer_step] [].

(** The answers are the same whatever the call. *)
Definition pick : forall X, Event X -> X :=
  fun X ev =>
    match ev in Event T return T with
    | invoke_Plan _ => {| steps := [customer_step] |}
    | invoke_PlanWithUserInput _ =>
        {| PlanWithUserInput_steps := [customer_step]; updated_objective := "o" |}
    | invoke_ReplannerResponse _ =>
        {| action := isResponse {| Response_response := "done" |} |}
    | remote_invoke g _ => remote_answer g
    | interrupt _ => ""
    end.

(** A history whose last three entries hold a tool result and a tool
    call. *)
Definition history : list Message :=
  [ HumanMessage "hello";
    {| msg_type := Some "ai"; content := "How can I help?" |};
    {| msg_type := Some "tool_call"; content := "lookup(1)" |};
    {| msg_type := Some "tool"; content := "Luis" |};
    HumanMessage "what is my name?" ].

Definition planned (plan : list Step) : State :=
  {| original_objective := Some "what is my name?";
     action_plan := Some plan;
     messages := request; past_steps := []; response := None |}.

(** The replanner answers at once, with an empty text. *)
Definition answers_nothing : forall X, Event X -> nat -> option X * nat :=
  fun X ev =>
    match ev in Event T return nat -> option T * nat with
    | invoke_ReplannerResponse _ =>
        fun w => (Some {| action := isResponse {| Response_response := "" |} |}, S w)
    | other => approved _ other
    end.

(** A state without any key written yet, on an empty history. *)
Definition blank : State := initial_state [].

End Scenario.

(** ** Programs and their interpretation *)

Lemma interp_returns_with {W A : Type}
  (handler : forall X, Event X -> W -> option X * W)
  (ok : forall X, Event X -> X -> Prop) (p : Prog A) :
  answers_satisfy handler ok ->
  forall w a w', interp handler p w = (inr a, w') -> returns_with ok p a.
Proof.
  intros Hok. induction p as [b | e | X ev k IH]; intros w a w' Hrun; simpl in *.
  - congruence.
  - discriminate.
  - destruct (handler X ev w) as [[x |] w1] eqn:Hh; [| discriminate].
    exists x. split; [eapply Hok; eassumption | eapply IH; eassumption].
Qed.

Lemma answers_satisfy_any {W : Type}
  (handler : forall X, Event X -> W -> option X * W) :
  answers_satisfy handler any_answer.
Proof. intros X ev w x w' _. exact I. Qed.

Lemma returns_with_any {A : Type} (ok : forall X, Event X -> X -> Prop)
  (p : Prog A) (a : A) :
  returns_with ok p a -> returns_with any_answer p a.
Proof.
  induction p as [b | e | X ev k IH]; simpl; [done | done |].
  intros (x & _ & Hk). exists x. split; [exact I | by apply IH].
Qed.

(** ** What each node can return *)

Lemma supervisor_returns ok st ret :
  returns_with ok (supervisor st) ret ->
  exists first result,
    last (messages st) = Some first /\
    ok _ (invoke_Plan ([SystemMessage supervisor_prompt] ++
            List.filter (fun msg => negb (is_tool_message msg))
              (last_three (messages st)))) result /\
    ret = Some {| u_original_objective := Some (content first);
                  u_action_plan := Some (steps result);
                  u_messages := None; u_past_steps := None; u_response := None |}.
Proof.
  unfold supervisor, index_last.
  destruct (last (messages st)) as [first |]; simpl; [| done].
  intros (result & Hok & ->). by exists first, result.
Qed.

Lemma human_input_returns ok st ret :
  returns_with ok (human_input st) ret ->
  exists plan objective,
    action_plan st = Some plan /\ original_objective st = Some objective /\
    (ret = None \/
     exists msgs result,
       ok _ (invoke_PlanWithUserInput msgs) result /\
       ret = Some {| u_original_objective := Some (updated_objective result);
                     u_action_plan := Some (PlanWithUserInput_steps result);
                     u_messages := None; u_past_steps := None; u_response := None |}).
Proof.
  unfold human_input, getitem.
  destruct (action_plan st) as [plan |]; simpl; [| done].
  intros (user_input & _ & H).
  destruct (original_objective st) as [objective |]; simpl in H; [| done].
  exists plan, objective. split; [done |]. split; [done |].
  destruct (String.eqb user_input ""); simpl in H.
  - by left.
  - destruct H as (result & Hok & ->). right. by eexists _, result.
Qed.

Lemma agent_executor_returns ok st ret :
  returns_with ok (agent_executor st) ret ->
  exists plan objective first text,
    action_plan st = Some plan /\ original_objective st = Some objective /\
    plan !! 0 = Some first /\
    ret = Some (one_past_step
      (subagent first
       +:+ " executed logic to answer the following request from the planner/supervisor: "
       +:+ description first, text)).
Proof.
  unfold agent_executor, getitem, index.
  destruct (action_plan st) as [plan |]; simpl; [| done].
  destruct (original_objective st) as [objective |]; simpl; [| done].
  destruct (plan !! 0) as [first |] eqn:Hfirst; simpl; [| done].
  intros H. exists plan, objective, first.
  unfold ask, index_last, dict_getitem in H.
  repeat (destruct (String.eqb (subagent first) _); simpl in H;
    [ destruct H as (resp & _ & H);
      destruct (last resp) as [entry |]; simpl in H; [| done];
      destruct (dict_get entry "content") as [c |]; simpl in H; [| done];
      subst ret; by exists c
    | ]).
  done.
Qed.

Lemma replanner_returns ok st ret :
  returns_with ok (replanner st) ret ->
  exists plan objective msgs result,
    action_plan st = Some plan /\ original_objective st = Some objective /\
    ok _ (invoke_ReplannerResponse msgs) result /\
    ret = Some match action result with
               | isResponse r =>
                   {| u_original_objective := None; u_action_plan := None;
                      u_messages := None; u_past_steps := None;
                      u_response := Some (Response_response r) |}
               | isPlan p =>
                   {| u_original_objective := None; u_action_plan := Some (steps p);
                      u_messages := None; u_past_steps := None;
                      u_response := None |}
               end.
Proof.
  unfold replanner, getitem.
  destruct (original_objective st) as [objective |]; simpl; [| done].
  destruct (action_plan st) as [plan |]; simpl; [| done].
  intros (result & Hok & H). exists plan, objective. eexists _, result.
  split; [done |]. split; [done |]. split; [exact Hok |].
  destruct (action result); simpl in H; by subst ret.
Qed.

Lemma registry_entry_None tag :
  registry_entry tag = None <-> tag ∉ known_subagents.
Proof.
  unfold registry_entry, known_subagents.
  rewrite !not_elem_of_cons.
  destruct (String.eqb_spec tag "customer_information_subagent");
  destruct (String.eqb_spec tag "music_catalog_information_subagent");
  destruct (String.eqb_spec tag "invoice_information_subagent");
  split; intros H; try discriminate; try reflexivity;
  try (destruct H as (? & ? & ? & _); congruence).
  repeat (split; [assumption |]). apply not_elem_of_nil.
Qed.

(** ** The routing predicate *)

Lemma should_end_END (st : State) : should_end st = END <-> response_set st.
Proof.
  unfold should_end, response_set.
  destruct (response st) as [r |]; [| split; [done | by intros (r & [=] & _)]].
  destruct (String.eqb_spec r "") as [-> | Hne]; simpl.
  - split; [done | by intros (r & [= <-] & Hr)].
  - split; [by exists r | done].
Qed.

Lemma should_end_range (st : State) :
  should_end st = END \/ should_end st = N_agent_executor.
Proof.
  unfold should_end. destruct (response st) as [r |]; [| by right].
  destruct (negb (String.eqb r "")); [by left | by right].
Qed.

Lemma should_end_unset (st : State) :
  ~ response_set st -> should_end st = N_agent_executor.
Proof.
  intros Hno. destruct (should_end_range st) as [He | He]; [| exact He].
  destruct Hno. by apply should_end_END.
Qed.

(** C3: [should_end] answers [END] exactly when [response] is present and
    a non-empty string, and answers the executor node in every other case,
    for every state. *)
Theorem should_end_iff_response_set (st : State) :
  (should_end st = END <-> response_set st) /\
  (should_end st = END \/ should_end st = N_agent_executor) /\
  (~ response_set st <-> should_end st = N_agent_executor).
Proof.
  pose proof (should_end_END st) as Hend.
  pose proof (should_end_range st) as Hrange.
  split; [exact Hend |]. split; [exact Hrange |]. split.
  - intros Hno. destruct Hrange as [He | He]; [| exact He].
    destruct Hno. by apply Hend.
  - intros He Hset. apply Hend in Hset. congruence.
Qed.

(** ** The executor on a tag outside the registry *)

(** C1, as stated, fails: on a plan whose first step carries the tag
    [billing_subagent] no branch of the chain is taken, and what is raised
    is the unbound local of the [return] statement, not an
    unknown-capability error. *)
Lemma rogue_tag_error_is_not_unknown_capability :
  (subagent Scenario.rogue_step ∉ known_subagents) /\
  agent_executor (Scenario.planned [Scenario.rogue_step])
    = Raise (UnboundLocalError "final_response") /\
  ~ (exists e, agent_executor (Scenario.planned [Scenario.rogue_step]) = Raise e
               /\ error_kind e = K_UnknownCapabilityError).
Proof.
  split; [| split].
  - apply registry_entry_None. reflexivity.
  - reflexivity.
  - intros (e & He & Hk). vm_compute in He. injection He as <-. discriminate.
Qed.

(** C1, amended: when the tag of the first step is none of the three, the
    executor calls no remote graph and returns nothing; the run aborts
    with the unbound-local error on [final_response], and the session
    fails at that node with the world untouched. There is no guard of
    its own for the case. *)
Theorem agent_executor_unmatched_tag st plan objective first :
  action_plan st = Some plan ->
  original_objective st = Some objective ->
  plan !! 0 = Some first ->
  subagent first ∉ known_subagents ->
  agent_executor st = Raise (UnboundLocalError "final_response") /\
  (forall pick, calls pick (agent_executor st) = []) /\
  (forall W (handler : forall X, Event X -> W -> option X * W) w,
     graph_step handler {| at_node := N_agent_executor; state := st; world := w |}
     = Failed (UnboundLocalError "final_response") w).
Proof.
  intros Hplan Hobj Hfirst Htag.
  apply registry_entry_None in Htag. unfold registry_entry in Htag.
  assert (Hraise : agent_executor st = Raise (UnboundLocalError "final_response")).
  { unfold agent_executor, getitem, index. rewrite Hplan, Hobj. simpl.
    rewrite Hfirst. simpl.
    destruct (String.eqb (subagent first) "customer_information_subagent"); [done |].
    destruct (String.eqb (subagent first) "music_catalog_information_subagent"); [done |].
    destruct (String.eqb (subagent first) "invoice_information_subagent"); [done |].
    reflexivity. }
  split; [exact Hraise |]. split.
  - intros pick. by rewrite Hraise.
  - intros W handler w. unfold graph_step. simpl. by rewrite Hraise.
Qed.

Lemma agent_executor_unmatched_tag_witness :
  agent_executor (Scenario.planned [Scenario.rogue_step])
    = Raise (UnboundLocalError "final_response") /\
  (forall pick, calls pick (agent_executor (Scenario.planned [Scenario.rogue_step])) = []) /\
  (forall W (handler : forall X, Event X -> W -> option X * W) w,
     graph_step handler {| at_node := N_agent_executor;
                           state := Scenario.planned [Scenario.rogue_step];
                           world := w |}
     = Failed (UnboundLocalError "final_response") w).
Proof.
  apply (agent_executor_unmatched_tag (Scenario.planned [Scenario.rogue_step])
           [Scenario.rogue_step] "what is my name?" Scenario.rogue_step).
  - reflexivity.
  - reflexivity.
  - reflexivity.
  - apply registry_entry_None. reflexivity.
Defined.

(** ** The replanner *)

(** C2: one run of the replanner makes one call to the model and then
    returns either the single key [response], holding the text of the
    model's answer, which leaves [action_plan] as it was, or the single key
    [action_plan], holding the model's new plan, which leaves [response] as
    it was (unset stays unset); never both keys and never none of them. *)
Theorem replanner_exactly_one_outcome st objective plan :
  original_objective st = Some objective ->
  action_plan st = Some plan ->
  exists k,
    replanner st
      = Vis (invoke_ReplannerResponse
               [SystemMessage (replanner_prompt objective (format_action_plan plan)
                                 (format_steps (past_steps st)))]) k /\
    forall result, exists u,
      k result = Ret (Some u) /\
      ((exists r, action result = isResponse r /\
                  u = sets_response (Response_response r) /\
                  response (apply_update st (Some u)) = Some (Response_response r) /\
                  action_plan (apply_update st (Some u)) = action_plan st)
       \/
       (exists p, action result = isPlan p /\
                  u = replaces_action_plan (steps p) /\
                  action_plan (apply_update st (Some u)) = Some (steps p) /\
                  response (apply_update st (Some u)) = response st /\
                  (~ response_set st -> ~ response_set (apply_update st (Some u)))))
      /\ ~ (is_Some (u_response u) /\ is_Some (u_action_plan u))
      /\ (is_Some (u_response u) \/ is_Some (u_action_plan u)).
Proof.
  intros Hobj Hplan. unfold replanner, getitem. rewrite Hobj, Hplan. simpl.
  eexists. split; [reflexivity |].
  intros result. cbv beta. destruct (action result) as [r | p] eqn:Hact.
  - exists (sets_response (Response_response r)). split; [reflexivity |].
    split; [| split].
    + left. exists r. simpl. by rewrite Hplan.
    + simpl. intros [_ [x [=]]].
    + left. simpl. by eexists.
  - exists (replaces_action_plan (steps p)). split; [reflexivity |].
    split; [| split].
    + right. exists p. simpl. repeat split; try done.
    + simpl. intros [[x [=]] _].
    + right. simpl. by eexists.
Qed.

Lemma replanner_exactly_one_outcome_witness :
  exists k,
    replanner (Scenario.planned [Scenario.customer_step])
      = Vis (invoke_ReplannerResponse
               [SystemMessage
                  (replanner_prompt "what is my name?"
                     (format_action_plan [Scenario.customer_step])
                     (format_steps []))]) k /\
    exists u,
      k {| action := isPlan {| steps := [Scenario.invoice_step] |} |} = Ret (Some u) /\
      ~ (is_Some (u_response u) /\ is_Some (u_action_plan u)) /\
      (is_Some (u_response u) \/ is_Some (u_action_plan u)).
Proof.
  destruct (replanner_exactly_one_outcome
              (Scenario.planned [Scenario.customer_step])
              "what is my name?" [Scenario.customer_step]
              eq_refl eq_refl) as (k & Hk & Hres).
  exists k. split; [exact Hk |].
  destruct (Hres {| action := isPlan {| steps := [Scenario.invoice_step] |} |})
    as (u & Hu & _ & Hnot & Hsome).
  exists u. split; [exact Hu |]. split; [exact Hnot | exact Hsome].
Defined.

(** ** The human review gate *)

(** C5: [human_input] suspends on the current plan. Resumed with the empty
    string it returns [None], so the state, and with it [action_plan] and
    [original_objective], is exactly what it was. Resumed with any other
    string it makes one call to the model and both keys become what the
    model returned, whatever they held before. *)
Theorem human_input_feedback st objective plan :
  original_objective st = Some objective ->
  action_plan st = Some plan ->
  exists k,
    human_input st = Vis (interrupt plan) k /\
    k "" = Ret None /\
    apply_update st None = st /\
    forall user_input, user_input <> "" ->
      exists k',
        k user_input
          = Vis (invoke_PlanWithUserInput
                   [SystemMessage (replan_with_user_input_prompt objective
                                     (format_action_plan plan) user_input)]) k' /\
        forall result, exists u,
          k' result = Ret (Some u) /\
          action_plan (apply_update st (Some u)) = Some (PlanWithUserInput_steps result) /\
          original_objective (apply_update st (Some u)) = Some (updated_objective result) /\
          messages (apply_update st (Some u)) = messages st /\
          past_steps (apply_update st (Some u)) = past_steps st /\
          response (apply_update st (Some u)) = response st.
Proof.
  intros Hobj Hplan. unfold human_input, getitem. rewrite Hplan. simpl.
  eexists. split; [reflexivity |]. cbv beta. rewrite Hobj. simpl.
  split; [reflexivity |]. split; [reflexivity |].
  intros user_input Hne.
  destruct (String.eqb_spec user_input "") as [-> | _]; [done |]. simpl.
  eexists. split; [reflexivity |].
  intros result. eexists. split; [reflexivity |]. simpl. done.
Qed.

Lemma human_input_feedback_witness :
  exists k,
    human_input (Scenario.planned [Scenario.invoice_step])
      = Vis (interrupt [Scenario.invoice_step]) k /\
    k "" = Ret None.
Proof.
  destruct (human_input_feedback (Scenario.planned [Scenario.invoice_step])
              "what is my name?" [Scenario.invoice_step] eq_refl eq_refl)
    as (k & Hk & Hempty & _).
  exists k. split; [exact Hk | exact Hempty].
Defined.

(** ** The executor *)

Lemma lookup_imap_plan_line (plan : list Step) (i : nat) :
  imap plan_line plan !! i = plan_line i <$> plan !! i.
Proof. apply list_lookup_imap. Qed.

(** C7: on a plan whose first step has a registered tag, the executor
    makes exactly one remote call: to the graph registered for the tag of
    the step at index 0, with a single human message. The message holds
    every step of the plan, in order, the step at index [i] as the line
    [i+1. subagent will: description], followed by the instruction to
    execute the first step #1, which restates the step at index 0. After
    the answer it calls nothing more. *)
Theorem agent_executor_dispatches_first_step st objective first rest g :
  original_objective st = Some objective ->
  action_plan st = Some (first :: rest) ->
  registry_entry (subagent first) = Some g ->
  let plan := first :: rest in
  let total_plan := String.concat LF (imap plan_line plan) in
  let prompt :=
    "For the following plan: " +:+ LF +:+ "    " +:+ total_plan +:+ LF
    +:+ "    You are tasked with executing the first step #1. "
    +:+ subagent first +:+ " will: " +:+ description first +:+ LF +:+ "    " in
  (exists k,
     agent_executor st = Vis (remote_invoke g [HumanMessage prompt]) k /\
     forall answer, (exists ret, k answer = Ret ret) \/ (exists e, k answer = Raise e)) /\
  (forall pick,
     calls pick (agent_executor st) = [any_event (remote_invoke g [HumanMessage prompt])]) /\
  length (imap plan_line plan) = length plan /\
  (forall i step, plan !! i = Some step ->
     imap plan_line plan !! i
       = Some (pretty (i + 1)%nat +:+ ". " +:+ subagent step +:+ " will: "
               +:+ description step)).
Proof.
  intros Hobj Hplan Hreg plan total_plan prompt.
  assert (Hshape : exists k,
     agent_executor st = Vis (remote_invoke g [HumanMessage prompt]) k /\
     forall answer, (exists ret, k answer = Ret ret) \/ (exists e, k answer = Raise e)).
  { unfold agent_executor, getitem, index. rewrite Hplan, Hobj. simpl.
    unfold registry_entry in Hreg.
    fold plan. fold total_plan.
    change (task_formatted_prompt total_plan (subagent first) (description first))
      with prompt.
    repeat (destruct (String.eqb (subagent first) _);
      [ injection Hreg as <-; simpl; eexists; split; [reflexivity |];
        intros answer; cbv beta; unfold index_last, dict_getitem;
        destruct (last answer) as [entry |]; simpl; [| right; by eexists];
        destruct (dict_get entry "content"); simpl; [left | right]; by eexists
      | ]).
    discriminate. }
  split; [exact Hshape |]. split; [| split].
  - intros pick. destruct Hshape as (k & -> & Hk). simpl.
    destruct (Hk (pick _ (remote_invoke g [HumanMessage prompt])))
      as [[ret ->] | [e ->]]; reflexivity.
  - apply length_imap.
  - intros i step Hi. rewrite lookup_imap_plan_line, Hi. reflexivity.
Qed.

Lemma agent_executor_dispatches_first_step_witness :
    calls Scenario.pick (agent_executor
                  (Scenario.planned [Scenario.catalog_step; Scenario.customer_step]))
    = [any_event
         (remote_invoke music_catalog_information_remote_graph
            [HumanMessage
               ("For the following plan: " +:+ LF
                +:+ "    1. music_catalog_information_subagent will: List the albums by U2 in the catalog"
                +:+ LF
                +:+ "2. customer_information_subagent will: Look up the name on the account of customer 1"
                +:+ LF
                +:+ "    You are tasked with executing the first step #1. music_catalog_information_subagent will: List the albums by U2 in the catalog"
                +:+ LF +:+ "    ")])].
Proof.
  exact (proj1 (proj2 (agent_executor_dispatches_first_step
    (Scenario.planned [Scenario.catalog_step; Scenario.customer_step])
    "what is my name?" Scenario.catalog_step [Scenario.customer_step]
    music_catalog_information_remote_graph eq_refl eq_refl eq_refl)) Scenario.pick).
Defined.

(** C8: a completed run of the executor returns the single key
    [past_steps] with one record. Merged into the state this appends the
    record and leaves [action_plan], [original_objective], [response] and
    [messages] as they were, so the replanner that runs next is shown the
    plan that was in force when the step was executed. *)
Theorem agent_executor_touches_only_past_steps
  {W : Type} (handler : forall X, Event X -> W -> option X * W) st w ret w' :
  interp handler (agent_executor st) w = (inr ret, w') ->
  exists rec objective plan,
    ret = Some (one_past_step rec) /\
    original_objective st = Some objective /\
    action_plan st = Some plan /\
    let st' := apply_update st ret in
    action_plan st' = action_plan st /\
    original_objective st' = original_objective st /\
    response st' = response st /\
    messages st' = messages st /\
    past_steps st' = (past_steps st ++ [rec])%list /\
    forall pick,
      calls pick (replanner st')
      = [any_event (invoke_ReplannerResponse
           [SystemMessage (replanner_prompt objective (format_action_plan plan)
                             (format_steps (past_steps st ++ [rec])))])].
Proof.
  intros Hrun.
  apply (interp_returns_with handler any_answer) in Hrun;
    [| apply answers_satisfy_any].
  apply agent_executor_returns in Hrun
    as (plan & objective & first & text & Hplan & Hobj & _ & ->).
  eexists _, objective, plan. split; [reflexivity |].
  split; [exact Hobj |]. split; [exact Hplan |]. simpl.
  repeat (split; [reflexivity |]).
  intros pick. unfold replanner, getitem. simpl. rewrite Hobj, Hplan. simpl.
  destruct (action (pick _ _)); reflexivity.
Qed.

Lemma agent_executor_touches_only_past_steps_witness :
  exists rec,
    (interp Scenario.approved
       (agent_executor (Scenario.planned [Scenario.customer_step])) 0).1
    = inr (Some (one_past_step rec)).
Proof.
  destruct (agent_executor_touches_only_past_steps Scenario.approved
              (Scenario.planned [Scenario.customer_step]) 0
              (Some (one_past_step
                 ("customer_information_subagent executed logic to answer the following request from the planner/supervisor: Look up the name on the account of customer 1",
                  "Luis"))) 0 eq_refl)
    as (rec & _ & _ & Hret & _).
  exists rec. rewrite <- Hret. reflexivity.
Defined.

(** ** The supervisor *)

Lemma length_last_three {A : Type} (l : list A) : length (last_three l) <= 3.
Proof. unfold last_three. rewrite length_drop. lia. Qed.

Lemma last_three_suffix {A : Type} (l : list A) : last_three l `suffix_of` l.
Proof. apply suffix_drop. Qed.

(** C9: with [first] the last entry of the history, the supervisor makes
    one call to the model, whose messages are the system prompt followed by
    those of the last three entries of the history that are not tagged
    [tool] or [tool_call], in order; it returns [original_objective] as the
    content of [first], unchanged, and [action_plan] as the steps of the
    model's plan. *)
Theorem supervisor_sets_plan_and_objective st first :
  last (messages st) = Some first ->
  exists shown k,
    supervisor st = Vis (invoke_Plan (SystemMessage supervisor_prompt :: shown)) k /\
    shown = List.filter (fun msg => negb (is_tool_message msg)) (last_three (messages st)) /\
    length shown <= 3 /\
    shown `sublist_of` last_three (messages st) /\
    last_three (messages st) `suffix_of` messages st /\
    Forall (fun msg => msg_type msg <> Some "tool" /\ msg_type msg <> Some "tool_call") shown /\
    forall result, exists u,
      k result = Ret (Some u) /\
      u_original_objective u = Some (content first) /\
      u_action_plan u = Some (steps result) /\
      original_objective (apply_update st (Some u)) = Some (content first) /\
      action_plan (apply_update st (Some u)) = Some (steps result).
Proof.
  intros Hlast. unfold supervisor, index_last. rewrite Hlast. simpl.
  eexists _, _. split; [reflexivity |]. split; [reflexivity |].
  split; [| split; [| split; [| split]]].
  - etransitivity; [apply filter_length_le | apply length_last_three].
  - induction (last_three (messages st)) as [| m l IH]; simpl; [done |].
    destruct (negb (is_tool_message m)); [by apply sublist_skip | by apply sublist_cons].
  - apply last_three_suffix.
  - apply Forall_forall. intros msg Hin.
    apply list_elem_of_In, filter_In in Hin as [_ Hnot].
    unfold is_tool_message in Hnot.
    destruct (msg_type msg) as [t |]; [| done].
    split; intros [= ->]; discriminate.
  - intros result. eexists. split; [reflexivity |]. done.
Qed.

Lemma supervisor_sets_plan_and_objective_witness :
  exists shown k,
    supervisor (initial_state Scenario.history)
      = Vis (invoke_Plan (SystemMessage supervisor_prompt :: shown)) k /\
    shown = [HumanMessage "what is my name?"].
Proof.
  destruct (supervisor_sets_plan_and_objective (initial_state Scenario.history)
              (HumanMessage "what is my name?") eq_refl)
    as (shown & k & Hk & Hshown & _).
  exists shown, k. split; [exact Hk |]. rewrite Hshown. reflexivity.
Defined.

(** ** Steps of the graph *)

Section Steps.

Context {W : Type}.
Variable handler : forall X, Event X -> W -> option X * W.
Variable ok : forall X, Event X -> X -> Prop.
Hypothesis handler_ok : answers_satisfy handler ok.

Lemma graph_step_inv c c' ret :
  graph_step handler c = Next c' ret ->
  state c' = apply_update (state c) ret /\
  next_node (at_node c) (state c') = Some (at_node c') /\
  match at_node c with
  | START => ret = None
  | N_supervisor => returns_with ok (supervisor (state c)) ret
  | N_human_input => returns_with ok (human_input (state c)) ret
  | N_agent_executor => returns_with ok (agent_executor (state c)) ret
  | N_replanner => returns_with ok (replanner (state c)) ret
  | END => False
  end.
Proof.
  unfold graph_step.
  destruct (at_node c) eqn:Hn; simpl; try discriminate;
    try (intros [= <- <-]; by simpl);
    match goal with
    | |- context [interp handler ?p ?w] =>
        destruct (interp handler p w) as [[e | r] w1] eqn:Hrun; [discriminate |]
    end;
    apply (interp_returns_with handler ok _ handler_ok) in Hrun;
    intros [= <- <-]; simpl; repeat split; (reflexivity || assumption).
Qed.

Lemma run_for_sound fuel c :
  run handler c (run_for handler fuel c).1 (run_for handler fuel c).2.
Proof.
  assert (Hcons : forall c1 c2 r tr c3,
            graph_step handler c1 = Next c2 r -> run handler c2 tr c3 ->
            run handler c1 ((at_node c1, r) :: tr) c3).
  { intros c1 c2 r tr c3 Hstep Hrun. induction Hrun as [| tr c3 c4 r' Hrun IH Hs].
    - apply (run_snoc handler c1 [] c1 c2 r); [constructor | exact Hstep].
    - rewrite app_comm_cons. eapply run_snoc; [exact IH | exact Hs]. }
  revert c. induction fuel as [| fuel IH]; intros c; simpl; [constructor |].
  destruct (graph_step handler c) as [c' r | |] eqn:Hstep; try constructor.
  specialize (IH c'). destruct (run_for handler fuel c') as [tr c''].
  simpl in *. eapply Hcons; eassumption.
Qed.

End Steps.

(** ** The execution history *)

Lemma executor_records_app tr1 tr2 :
  executor_records (tr1 ++ tr2) = (executor_records tr1 ++ executor_records tr2)%list.
Proof. unfold executor_records. apply flat_map_app. Qed.

Lemma executor_runs_app tr1 tr2 :
  executor_runs (tr1 ++ tr2) = (executor_runs tr1 + executor_runs tr2)%nat.
Proof. unfold executor_runs. by rewrite List.filter_app, length_app. Qed.

Section History.

Context {W : Type}.
Variable handler : forall X, Event X -> W -> option X * W.

Lemma graph_step_past_steps c c' ret :
  graph_step handler c = Next c' ret ->
  past_steps (state c')
    = (past_steps (state c) ++ executor_records [(at_node c, ret)])%list /\
  length (executor_records [(at_node c, ret)]) = executor_runs [(at_node c, ret)] /\
  (at_node c = N_agent_executor -> exists rec, ret = Some (one_past_step rec)).
Proof.
  intros Hstep.
  apply (graph_step_inv handler any_answer (answers_satisfy_any handler)) in Hstep
    as (Hst & _ & Hret).
  rewrite Hst. destruct (at_node c) eqn:Hn.
  - subst ret. simpl. rewrite app_nil_r. done.
  - apply supervisor_returns in Hret as (first & result & _ & _ & ->).
    simpl. rewrite app_nil_r. done.
  - apply agent_executor_returns in Hret
      as (plan & objective & first & text & _ & _ & _ & ->).
    simpl. split; [done |]. split; [done |]. intros _. by eexists.
  - apply replanner_returns in Hret
      as (plan & objective & msgs & result & _ & _ & _ & ->).
    destruct (action result); simpl; rewrite app_nil_r; done.
  - apply human_input_returns in Hret
      as (plan & objective & _ & _ & [-> | (msgs & result & _ & ->)]);
      simpl; rewrite app_nil_r; done.
  - done.
Qed.

Lemma run_past_steps c tr c' :
  run handler c tr c' ->
  past_steps (state c') = (past_steps (state c) ++ executor_records tr)%list /\
  length (executor_records tr) = executor_runs tr /\
  Forall (fun e => e.1 = N_agent_executor -> exists rec, e.2 = Some (one_past_step rec)) tr.
Proof.
  induction 1 as [| tr c' c'' ret Hrun (IHst & IHlen & IHall) Hstep].
  - simpl. rewrite app_nil_r. done.
  - apply graph_step_past_steps in Hstep as (Hst & Hlen & Hshape).
    rewrite executor_records_app, executor_runs_app, length_app, Hst, IHst, IHlen, Hlen.
    split; [by rewrite app_assoc |]. split; [done |].
    apply Forall_app. split; [exact IHall |]. by apply Forall_singleton.
Qed.

(** C6: in a session started from a fresh state, once [n] runs of the
    executor have completed, [past_steps] has exactly [n] entries: each
    run returned exactly one record, [past_steps] is the list of those
    records in the order of the runs, and whatever the session does next
    only extends it at the end. *)
Theorem past_steps_one_per_executor_run input w tr c :
  run handler (start input w) tr c ->
  length (past_steps (state c)) = executor_runs tr /\
  past_steps (state c) = executor_records tr /\
  Forall (fun e => e.1 = N_agent_executor -> exists rec, e.2 = Some (one_past_step rec)) tr /\
  (forall tr' c', run handler c tr' c' ->
     past_steps (state c) `prefix_of` past_steps (state c') /\
     length (past_steps (state c')) = (executor_runs tr + executor_runs tr')%nat) /\
  (forall c' ret, graph_step handler c = Next c' ret ->
     length (past_steps (state c'))
     = if decide (at_node c = N_agent_executor)
       then S (length (past_steps (state c)))
       else length (past_steps (state c))).
Proof.
  intros Hrun. apply run_past_steps in Hrun as (Hst & Hlen & Hall).
  simpl in Hst. split; [by rewrite Hst |]. split; [exact Hst |].
  split; [exact Hall |]. split.
  - intros tr' c' Hrun'. apply run_past_steps in Hrun' as (Hst' & Hlen' & _).
    split; [rewrite Hst'; by apply prefix_app_r |].
    by rewrite Hst', length_app, Hst, Hlen, Hlen'.
  - intros c' ret Hstep.
    apply graph_step_past_steps in Hstep as (Hst' & _ & Hshape).
    rewrite Hst', length_app. case_decide as Hn.
    + destruct (Hshape Hn) as (rec & ->). rewrite Hn. simpl. lia.
    + unfold executor_records. simpl. rewrite decide_False by done. simpl. lia.
Qed.

End History.

Lemma past_steps_one_per_executor_run_witness :
  length (past_steps (state (run_for Scenario.approved 7 (start Scenario.request 0)).2))
  = executor_runs (run_for Scenario.approved 7 (start Scenario.request 0)).1 /\
  executor_runs (run_for Scenario.approved 7 (start Scenario.request 0)).1 = 2.
Proof.
  split; [| reflexivity].
  exact (proj1 (past_steps_one_per_executor_run Scenario.approved Scenario.request 0 _ _
                  (run_for_sound Scenario.approved 7 (start Scenario.request 0)))).
Defined.

(** ** The plan on entry to the executor *)

(** C4, as stated, fails: nothing in the graph checks the length of a plan.
    When the model plans no step, or continues with a plan without steps,
    control enters the executor with [response] unset and an empty
    [action_plan], and the executor fails on the step at index 0. *)
Lemma empty_plan_reaches_executor :
  (exists tr c,
     run Scenario.plans_nothing (start Scenario.request 0) tr c /\
     at_node c = N_agent_executor /\
     response (state c) = None /\
     action_plan (state c) = Some [] /\
     graph_step Scenario.plans_nothing c = Failed IndexError 0) /\
  (exists tr c,
     run Scenario.continues_with_nothing (start Scenario.request 0) tr c /\
     map fst tr = [START; N_supervisor; N_human_input; N_agent_executor; N_replanner] /\
     at_node c = N_agent_executor /\
     response (state c) = None /\
     action_plan (state c) = Some [] /\
     graph_step Scenario.continues_with_nothing c = Failed IndexError 1).
Proof.
  split.
  - exists (run_for Scenario.plans_nothing 3 (start Scenario.request 0)).1,
           (run_for Scenario.plans_nothing 3 (start Scenario.request 0)).2.
    split; [apply run_for_sound |]. by vm_compute.
  - exists (run_for Scenario.continues_with_nothing 5 (start Scenario.request 0)).1,
           (run_for Scenario.continues_with_nothing 5 (start Scenario.request 0)).2.
    split; [apply run_for_sound |]. by vm_compute.
Qed.

Section NonEmptyPlans.

Context {W : Type}.
Variable handler : forall X, Event X -> W -> option X * W.
Hypothesis plans_nonempty : answers_satisfy handler plan_answer_nonempty.

Lemma run_plan_invariant input w tr c :
  run handler (start input w) tr c ->
  (at_node c <> END -> ~ response_set (state c)) /\
  (at_node c <> START -> at_node c <> N_supervisor ->
   exists first rest objective,
     action_plan (state c) = Some (first :: rest) /\
     original_objective (state c) = Some objective).
Proof.
  induction 1 as [| tr c' c'' ret Hrun (IHresp & IHplan) Hstep].
  - simpl. split; [by intros _ (r & [=] & _) | done].
  - apply (graph_step_inv handler _ plans_nonempty) in Hstep as (Hst & Hnext & Hret).
    rewrite Hst. destruct (at_node c') eqn:Hn.
    + subst ret. injection Hnext as <-. simpl. split; [by auto | done].
    + apply supervisor_returns in Hret as (first & result & _ & Hne & ->).
      injection Hnext as <-. simpl in *. split; [by auto |]. intros _ _.
      destruct (steps result) as [| s rest]; [done |]. by eexists _, _, _.
    + apply agent_executor_returns in Hret
        as (plan & objective & first & text & _ & _ & _ & ->).
      injection Hnext as <-. simpl. split; [by auto |]. intros _ _. by apply IHplan.
    + apply replanner_returns in Hret
        as (plan & objective & msgs & result & _ & _ & Hne & ->).
      injection Hnext as Hnext. split.
      * rewrite <- Hst. intros Hnot Hset. apply should_end_END in Hset.
        congruence.
      * intros _ _. destruct (IHplan ltac:(done) ltac:(done))
          as (first & rest & obj & Hp & Ho).
        simpl in Hne. destruct (action result) as [r | p]; simpl; rewrite ?Hp, ?Ho.
        -- by eexists _, _, _.
        -- destruct (steps p) as [| s rest']; [done |]. by eexists _, _, _.
    + destruct (IHplan ltac:(done) ltac:(done)) as (first & rest & obj & Hp & Ho).
      apply human_input_returns in Hret
        as (plan & objective & _ & _ & [-> | (msgs & result & Hne & ->)]);
        injection Hnext as <-; simpl in *.
      * split; [by auto |]. intros _ _. by eexists _, _, _.
      * split; [by auto |]. intros _ _.
        destruct (PlanWithUserInput_steps result) as [| s rest']; [done |].
        by eexists _, _, _.
    + done.
Qed.

(** C4, amended: provided every plan the model returns (to the
    supervisor, to the review gate after feedback, to the replanner when
    it continues) has at least one step, whenever control is about to
    enter the executor [response] is unset and [action_plan] is present
    and non-empty, so the step at index 0 exists. The graph itself does
    not check this. *)
Theorem action_plan_nonempty_before_executor input w tr c :
  run handler (start input w) tr c ->
  at_node c = N_agent_executor ->
  ~ response_set (state c) /\
  exists first rest,
    action_plan (state c) = Some (first :: rest) /\
    index (first :: rest) 0 = Ret first.
Proof.
  intros Hrun Hn. apply run_plan_invariant in Hrun as (Hresp & Hplan).
  rewrite Hn in *. split; [by apply Hresp |].
  destruct (Hplan ltac:(done) ltac:(done)) as (first & rest & _ & Hp & _).
  by exists first, rest.
Qed.

End NonEmptyPlans.

Lemma approved_plans_nonempty :
  answers_satisfy Scenario.approved plan_answer_nonempty.
Proof.
  intros X ev w x w'. destruct ev; simpl; intros [= <- <-]; simpl; try done.
  by destruct (Nat.eqb w 0).
Qed.

Lemma action_plan_nonempty_before_executor_witness :
  exists first rest,
    action_plan (state (run_for Scenario.approved 5 (start Scenario.request 0)).2)
    = Some (first :: rest).
Proof.
  destruct (action_plan_nonempty_before_executor Scenario.approved
              approved_plans_nonempty Scenario.request 0 _ _
              (run_for_sound Scenario.approved 5 (start Scenario.request 0))
              eq_refl) as (_ & first & rest & Hp & _).
  by exists first, rest.
Defined.

(** ** Control flow *)

Lemma edge_cases a b :
  edge a b <->
  (a, b) ∈ [ (START, N_supervisor); (N_supervisor, N_human_input);
             (N_human_input, N_agent_executor); (N_agent_executor, N_replanner);
             (N_replanner, N_agent_executor); (N_replanner, END) ].
Proof.
  unfold edge, edges, conditional_edges.
  rewrite !elem_of_cons, !elem_of_nil. split.
  - intros [H | (path & targets & H & Hb)].
    + destruct H as [[= -> ->] | [[= -> ->] | [[= -> ->] | [[= -> ->] | []]]]];
        auto 10.
    + rewrite elem_of_cons, elem_of_nil in H. destruct H as [H | []].
      injection H as -> -> ->.
      rewrite !elem_of_cons, elem_of_nil in Hb.
      destruct Hb as [-> | [-> | []]]; auto 10.
  - intros [[= -> ->] | [[= -> ->] | [[= -> ->] | [[= -> ->] | H]]]]; auto 10.
    right. exists should_end, [N_agent_executor; END].
    rewrite !elem_of_cons.
    destruct H as [[= -> ->] | [[= -> ->] | []]]; auto 10.
Qed.

Lemma next_node_edge n st m : next_node n st = Some m -> edge n m.
Proof.
  intros H. apply edge_cases. rewrite !elem_of_cons.
  destruct n; simpl in H; try discriminate; try (injection H as <-; auto 10).
  destruct (should_end_range st) as [-> | ->]; auto 10.
Qed.

Lemma edge_rank a b :
  edge a b -> rank a < rank b \/ (rank a = 3 /\ rank b = 3).
Proof.
  rewrite edge_cases, !elem_of_cons, elem_of_nil.
  intros H; repeat (destruct H as [[= -> ->] | H]); simpl; lia.
Qed.

Lemma tc_edge_rank a b :
  tc edge a b -> rank a < rank b \/ (rank a = 3 /\ rank b = 3).
Proof.
  induction 1 as [a b H | a b c H _ IH].
  - by apply edge_rank.
  - apply edge_rank in H. lia.
Qed.

Lemma loop_path_snoc k :
  loop_path (S k) = (loop_path k ++ [N_agent_executor; N_replanner])%list.
Proof. induction k as [| k IH]; [done |]. simpl in *. by rewrite <- IH. Qed.

Lemma path_to_prefix n k : path_to n k `prefix_of` session_path (S k).
Proof.
  unfold session_path. rewrite loop_path_snoc.
  destruct n; simpl.
  - by eexists.
  - by eexists.
  - exists [N_replanner; END]. simpl. by rewrite <- !app_assoc.
  - rewrite <- loop_path_snoc. by exists [END].
  - by eexists.
  - rewrite <- loop_path_snoc. done.
Qed.

Section ControlFlow.

Context {W : Type}.
Variable handler : forall X, Event X -> W -> option X * W.

Lemma graph_step_edge c c' ret :
  graph_step handler c = Next c' ret ->
  edge (at_node c) (at_node c') /\
  (at_node c = N_replanner -> at_node c' = should_end (state c')).
Proof.
  intros Hstep.
  apply (graph_step_inv handler any_answer (answers_satisfy_any handler)) in Hstep
    as (_ & Hnext & _).
  split; [by eapply next_node_edge |].
  intros Hn. rewrite Hn in Hnext. by injection Hnext.
Qed.

Lemma run_path input w tr c :
  run handler (start input w) tr c ->
  exists k, (map fst tr ++ [at_node c])%list = path_to (at_node c) k.
Proof.
  induction 1 as [| tr c' c'' ret Hrun (k & IH) Hstep].
  - by exists 0.
  - rewrite map_app. simpl. rewrite <- app_assoc. simpl.
    apply (graph_step_inv handler any_answer (answers_satisfy_any handler)) in Hstep
      as (_ & Hnext & _).
    change (map fst tr ++ [at_node c'; at_node c''])%list
      with (map fst tr ++ [at_node c'] ++ [at_node c''])%list.
    rewrite app_assoc, IH. clear IH.
    destruct (at_node c') eqn:Hn; simpl in Hnext; try discriminate.
    + injection Hnext as <-. by exists 0.
    + injection Hnext as <-. by exists 0.
    + injection Hnext as <-. exists k. simpl. rewrite <- !app_assoc.
      pose proof (loop_path_snoc k) as Hs. simpl in Hs. by rewrite Hs.
    + injection Hnext as <-.
      destruct (should_end_range (state c'')) as [-> | ->].
      * exists k. unfold path_to, session_path. by rewrite <- !app_assoc.
      * exists (S k). unfold path_to. by rewrite <- !app_assoc.
    + injection Hnext as <-. by exists 0.
Qed.

(** C10: the node runs of a session, followed by the node control is
    about to enter, are an initial part of
    [START, supervisor, human_input, (agent_executor, replanner)*, END].
    The graph has six edges; the replanner goes back to the executor
    exactly when [response] is unset and to [END] exactly when it is set.
    No path of the graph leads back to the supervisor or to the review
    gate from a later node, and the only nodes that lie on a cycle are
    [agent_executor] and [replanner].
    Control does move along that order: the successor of each node is the
    next one of the list, the session leaves [START] for the supervisor at
    once, and whenever the body of a node completes the graph steps into
    its successor with the merged state: the review gate after the
    supervisor, the executor after the gate, the replanner after the
    executor, and after the replanner the executor again when [response]
    is unset and [END] when it is set, where the session halts. *)
Theorem control_flow_fixed_order input w tr c :
  run handler (start input w) tr c ->
  (exists k, (map fst tr ++ [at_node c])%list `prefix_of` session_path k) /\
  (forall a b,
     edge a b <->
     (a, b) ∈ [ (START, N_supervisor); (N_supervisor, N_human_input);
                (N_human_input, N_agent_executor); (N_agent_executor, N_replanner);
                (N_replanner, N_agent_executor); (N_replanner, END) ]) /\
  (forall c1 c2 ret,
     graph_step handler c1 = Next c2 ret ->
     edge (at_node c1) (at_node c2) /\
     (at_node c1 = N_replanner ->
      (at_node c2 = N_agent_executor <-> ~ response_set (state c2)) /\
      (at_node c2 = END <-> response_set (state c2)))) /\
  (forall a, ~ tc edge a START) /\
  (forall a, tc edge a N_supervisor -> a = START) /\
  (forall a, tc edge a N_human_input -> a = START \/ a = N_supervisor) /\
  (forall n, tc edge n n <-> n = N_agent_executor \/ n = N_replanner) /\
  (forall st,
     next_node START st = Some N_supervisor /\
     next_node N_supervisor st = Some N_human_input /\
     next_node N_human_input st = Some N_agent_executor /\
     next_node N_agent_executor st = Some N_replanner /\
     next_node N_replanner st = Some (should_end st) /\
     (~ response_set st -> next_node N_replanner st = Some N_agent_executor) /\
     (response_set st -> next_node N_replanner st = Some END) /\
     next_node END st = None) /\
  (forall c1,
     at_node c1 = START ->
     graph_step handler c1
     = Next {| at_node := N_supervisor; state := state c1; world := world c1 |} None) /\
  (forall c1 ret w',
     at_node c1 = N_supervisor ->
     interp handler (supervisor (state c1)) (world c1) = (inr ret, w') ->
     graph_step handler c1
     = Next {| at_node := N_human_input;
               state := apply_update (state c1) ret; world := w' |} ret) /\
  (forall c1 ret w',
     at_node c1 = N_human_input ->
     interp handler (human_input (state c1)) (world c1) = (inr ret, w') ->
     graph_step handler c1
     = Next {| at_node := N_agent_executor;
               state := apply_update (state c1) ret; world := w' |} ret) /\
  (forall c1 ret w',
     at_node c1 = N_agent_executor ->
     interp handler (agent_executor (state c1)) (world c1) = (inr ret, w') ->
     graph_step handler c1
     = Next {| at_node := N_replanner;
               state := apply_update (state c1) ret; world := w' |} ret) /\
  (forall c1 ret w',
     at_node c1 = N_replanner ->
     interp handler (replanner (state c1)) (world c1) = (inr ret, w') ->
     (~ response_set (apply_update (state c1) ret) ->
      graph_step handler c1
      = Next {| at_node := N_agent_executor;
                state := apply_update (state c1) ret; world := w' |} ret) /\
     (response_set (apply_update (state c1) ret) ->
      graph_step handler c1
      = Next {| at_node := END;
                state := apply_update (state c1) ret; world := w' |} ret)) /\
  (forall c1, at_node c1 = END -> graph_step handler c1 = Halted).
Proof.
  intros Hrun.
  split; [| split; [| split; [| split; [| split; [| split; [| split;
    [| split; [| split; [| split; [| split; [| split; [| split]]]]]]]]]]]].
  - apply run_path in Hrun as (k & ->). exists (S k). apply path_to_prefix.
  - apply edge_cases.
  - intros c1 c2 ret Hstep. apply graph_step_edge in Hstep as (Hedge & Hrp).
    split; [exact Hedge |]. intros Hn. rewrite (Hrp Hn).
    pose proof (should_end_END (state c2)) as Hend.
    destruct (should_end_range (state c2)) as [He | He]; rewrite He.
    + assert (Hset : response_set (state c2)) by (by apply Hend).
      split; split; done.
    + assert (Hno : ~ response_set (state c2)).
      { intros Hset. apply Hend in Hset. congruence. }
      split; split; try done.
  - intros a Htc. apply tc_edge_rank in Htc. simpl in Htc. lia.
  - intros a Htc. apply tc_edge_rank in Htc. destruct a; simpl in Htc; (done || lia).
  - intros a Htc. apply tc_edge_rank in Htc. destruct a; simpl in Htc; (auto || lia).
  - intros n. split.
    + intros Htc. apply tc_edge_rank in Htc. destruct n; simpl in Htc; (auto || lia).
    + assert (Her : edge N_agent_executor N_replanner)
        by (apply edge_cases; rewrite !elem_of_cons; auto 10).
      assert (Hre : edge N_replanner N_agent_executor)
        by (apply edge_cases; rewrite !elem_of_cons; auto 10).
      intros [-> | ->]; eapply tc_l; eauto using tc_once.
  - intros st. repeat (split; [reflexivity |]). split; [| split; [| reflexivity]].
    + intros Hno. change (Some (should_end st) = Some N_agent_executor).
      by rewrite should_end_unset.
    + intros Hset. change (Some (should_end st) = Some END).
      by rewrite (proj2 (should_end_END st) Hset).
  - intros c1 Hn. unfold graph_step. by rewrite Hn.
  - intros c1 ret w' Hn Hbody. unfold graph_step. rewrite Hn. simpl. by rewrite Hbody.
  - intros c1 ret w' Hn Hbody. unfold graph_step. rewrite Hn. simpl. by rewrite Hbody.
  - intros c1 ret w' Hn Hbody. unfold graph_step. rewrite Hn. simpl. by rewrite Hbody.
  - intros c1 ret w' Hn Hbody. unfold graph_step. rewrite Hn. simpl. rewrite Hbody.
    simpl. split.
    + intros Hno. by rewrite should_end_unset.
    + intros Hset. by rewrite (proj2 (should_end_END _) Hset).
  - intros c1 Hn. unfold graph_step. by rewrite Hn.
Qed.

End ControlFlow.

Lemma control_flow_fixed_order_witness :
  (exists k,
     (map fst (run_for Scenario.approved 7 (start Scenario.request 0)).1
        ++ [at_node (run_for Scenario.approved 7 (start Scenario.request 0)).2])%list
     `prefix_of` session_path k) /\
  (map fst (run_for Scenario.approved 7 (start Scenario.request 0)).1
     ++ [at_node (run_for Scenario.approved 7 (start Scenario.request 0)).2])%list
  = [START; N_supervisor; N_human_input; N_agent_executor; N_replanner;
     N_agent_executor; N_replanner; END] /\
  graph_step Scenario.approved (start Scenario.request 0)
  = Next {| at_node := N_supervisor; state := initial_state Scenario.request;
            world := 0 |} None.
Proof.
  pose proof (control_flow_fixed_order Scenario.approved Scenario.request 0 _ _
                (run_for_sound Scenario.approved 7 (start Scenario.request 0)))
    as (Hprefix & _ & _ & _ & _ & _ & _ & _ & Hstart & _).
  split; [exact Hprefix |]. split; [reflexivity |].
  exact (Hstart (start Scenario.request 0) eq_refl).
Defined.

(** ** The two formatters *)

Lemma append_assoc (a b c : string) : (a +:+ b) +:+ c = a +:+ (b +:+ c).
Proof.
  induction a as [| ch a IH]; [reflexivity |].
  change (String ch ((a +:+ b) +:+ c) = String ch (a +:+ (b +:+ c))).
  by rewrite IH.
Qed.

Lemma append_nil_r (a : string) : a +:+ "" = a.
Proof.
  induction a as [| ch a IH]; [reflexivity |].
  change (String ch (a +:+ "") = String ch a). by rewrite IH.
Qed.

Lemma concat_cons_more (sep x : string) (l : list string) :
  l <> [] -> String.concat sep (x :: l) = x +:+ sep +:+ String.concat sep l.
Proof. destruct l; [done | reflexivity]. Qed.

Lemma imap_shift {A B : Type} (f : nat -> A -> B) (m : nat) (l : list A) :
  imap ((fun j => f (m + j)%nat) ∘ S) l = imap (fun j => f (S m + j)%nat) l.
Proof. apply imap_ext. intros j x _. simpl. f_equal. lia. Qed.

Lemma format_action_plan_loop_closed (rest : list Step) :
  forall n m summary,
    (S m + length rest = S n)%nat ->
    format_action_plan_loop n (S m) rest summary
    = summary +:+ String.concat separator
                    (imap (fun j => action_block (m + j)) rest).
Proof.
  induction rest as [| step rest IH]; intros n m summary Hlen.
  - simpl. by rewrite append_nil_r.
  - cbn [format_action_plan_loop]. rewrite imap_cons, imap_shift.
    assert (Hblock : ((summary +:+ "## Action " +:+ pretty (S m) +:+ LF +:+ LF)
                      +:+ "### Agent" +:+ LF +:+ subagent step +:+ LF +:+ LF)
                     +:+ "### Task" +:+ LF +:+ description step +:+ LF +:+ LF
                     = summary +:+ action_block (m + 0) step).
    { unfold action_block. replace (m + 0 + 1)%nat with (S m) by lia.
      by rewrite !append_assoc. }
    rewrite Hblock. destruct rest as [| step' rest'].
    + simpl in Hlen. replace (S m <? n)%nat with false
        by (symmetry; apply Nat.ltb_ge; lia).
      reflexivity.
    + simpl in Hlen. replace (S m <? n)%nat with true
        by (symmetry; apply Nat.ltb_lt; lia).
      rewrite (IH n (S m)) by (simpl; lia).
      rewrite concat_cons_more by (rewrite imap_cons; discriminate).
      fold separator. set (tail := String.concat separator _).
      by rewrite !append_assoc.
Qed.

Lemma format_steps_loop_closed (rest : list ExecutionRecord) :
  forall n m formatted_output,
    (S m + length rest = S n)%nat ->
    format_steps_loop n (S m) rest formatted_output
    = formatted_output +:+ String.concat separator
                             (imap (fun j => step_block (m + j)) rest).
Proof.
  induction rest as [| step rest IH]; intros n m out Hlen.
  - simpl. by rewrite append_nil_r.
  - cbn [format_steps_loop]. rewrite imap_cons, imap_shift.
    assert (Hblock : (((out +:+ "## Step " +:+ pretty (S m) +:+ LF +:+ LF)
                       +:+ "### Task Description" +:+ LF +:+ fst step +:+ LF +:+ LF)
                      +:+ "### Result" +:+ LF
                      +:+ "The following is the response returned after the subagent performed the task above:"
                      +:+ LF +:+ LF)
                     +:+ snd step +:+ LF +:+ LF
                     = out +:+ step_block (m + 0) step).
    { unfold step_block. replace (m + 0 + 1)%nat with (S m) by lia.
      by rewrite !append_assoc. }
    rewrite Hblock. destruct rest as [| step' rest'].
    + simpl in Hlen. replace (S m <? n)%nat with false
        by (symmetry; apply Nat.ltb_ge; lia).
      reflexivity.
    + simpl in Hlen. replace (S m <? n)%nat with true
        by (symmetry; apply Nat.ltb_lt; lia).
      rewrite (IH n (S m)) by (simpl; lia).
      rewrite concat_cons_more by (rewrite imap_cons; discriminate).
      fold separator. set (tail := String.concat separator _).
      by rewrite !append_assoc.
Qed.

(** X1: [format_action_plan] returns its header followed by one block per
    step, in order, the step at position [j] numbered [j+1]; the blocks are
    joined by the separator line, so that a separator stands between two
    blocks and none follows the last one. *)
Theorem format_action_plan_closed_form (steps_list : list Step) :
  format_action_plan steps_list
  = "# ACTION PLAN FROM PREVIOUS SUPERVISOR/PLANNER" +:+ LF +:+ LF
    +:+ String.concat separator (imap action_block steps_list).
Proof.
  unfold format_action_plan.
  rewrite (format_action_plan_loop_closed steps_list (length steps_list) 0) by done.
  by rewrite !append_assoc.
Qed.

(** X2: [format_steps] returns its header followed by one block per
    record, in order, the record at position [j] numbered [j+1] and showing
    first the task description and then the result; the blocks are joined by
    the separator line, none after the last. *)
Theorem format_steps_closed_form (steps_list : list ExecutionRecord) :
  format_steps steps_list
  = "# STEPS ALREADY PERFORMED BY THE SUBAGENTS" +:+ LF +:+ LF
    +:+ String.concat separator (imap step_block steps_list).
Proof.
  unfold format_steps.
  rewrite (format_steps_loop_closed steps_list (length steps_list) 0) by done.
  by rewrite !append_assoc.
Qed.

(** ** Missing keys, empty lists and malformed answers *)

Lemma last_is_Some {A : Type} (l : list A) : l <> [] -> is_Some (last l).
Proof.
  destruct l as [| x l] using rev_ind; [done |]. intros _. rewrite last_snoc. by eexists.
Qed.

(** X3: the supervisor fails with an index error exactly when the history
    is empty, and then before anything is sent to the model; on a
    non-empty history its first action is the call to the model. *)
Theorem supervisor_empty_history (st : State) :
  (supervisor st = Raise IndexError <-> messages st = []) /\
  (messages st = [] \/ exists msgs k, supervisor st = Vis (invoke_Plan msgs) k).
Proof.
  unfold supervisor, index_last.
  destruct (messages st) as [| m l] eqn:Hm.
  - simpl. split; [done | by left].
  - destruct (last_is_Some (m :: l)) as [first Hfirst]; [done |].
    rewrite Hfirst. simpl. split; [split; discriminate |]. right. by eexists _, _.
Qed.

Lemma last_three_snoc {A : Type} (l : list A) (x : A) :
  exists l', last_three (l ++ [x]) = (l' ++ [x])%list.
Proof.
  unfold last_three. rewrite length_app. simpl.
  exists (drop (length l + 1 - 3) l).
  rewrite drop_app_le by lia. done.
Qed.

(** X4: the entry whose content becomes the objective is the last one the
    model is shown, unless it is tagged [tool] or [tool_call]: then the
    model is not shown it at all, and the objective is still taken from
    it. *)
Theorem supervisor_shows_triggering_message st first :
  last (messages st) = Some first ->
  exists shown k,
    supervisor st = Vis (invoke_Plan (SystemMessage supervisor_prompt :: shown)) k /\
    (forall result, exists u,
       k result = Ret (Some u) /\ u_original_objective u = Some (content first)) /\
    (is_tool_message first = false -> last shown = Some first) /\
    (is_tool_message first = true -> first ∉ shown).
Proof.
  intros Hlast. unfold supervisor, index_last. rewrite Hlast. simpl.
  eexists _, _. split; [reflexivity |]. split; [by eexists |].
  apply last_Some in Hlast as [l' Hl]. rewrite Hl.
  destruct (last_three_snoc l' first) as [l3 ->].
  rewrite List.filter_app. simpl. split.
  - intros ->. simpl. by rewrite last_snoc.
  - intros Htool Hin. rewrite Htool in Hin. simpl in Hin. rewrite app_nil_r in Hin.
    apply list_elem_of_In, filter_In in Hin as [_ Hnot]. by rewrite Htool in Hnot.
Qed.

Lemma supervisor_shows_triggering_message_witness :
  exists shown k,
    supervisor (initial_state Scenario.history)
      = Vis (invoke_Plan (SystemMessage supervisor_prompt :: shown)) k /\
    last shown = Some (HumanMessage "what is my name?").
Proof.
  destruct (supervisor_shows_triggering_message (initial_state Scenario.history)
              (HumanMessage "what is my name?") eq_refl)
    as (shown & k & Hk & _ & Hshown & _).
  exists shown, k. split; [exact Hk | by apply Hshown].
Defined.

(** X5: the review gate reads [action_plan] before it suspends and
    [original_objective] after it has been resumed. Without a plan it fails
    with a key error and never suspends; with a plan but no objective it
    suspends and then fails whatever the human says, the empty string
    included; with both keys it never fails by itself. *)
Theorem human_input_key_errors (st : State) :
  match action_plan st, original_objective st with
  | None, _ => human_input st = Raise (KeyError "action_plan")
  | Some plan, None =>
      exists k, human_input st = Vis (interrupt plan) k /\
                forall user_input, k user_input = Raise (KeyError "original_objective")
  | Some plan, Some _ =>
      exists k, human_input st = Vis (interrupt plan) k /\
                forall user_input e, k user_input <> Raise e
  end.
Proof.
  unfold human_input, getitem.
  destruct (action_plan st) as [plan |]; simpl; [| done].
  destruct (original_objective st) as [objective |].
  - eexists. split; [reflexivity |]. intros user_input e. simpl.
    destruct (negb (String.eqb user_input "")); discriminate.
  - eexists. split; [reflexivity |]. done.
Qed.

(** X6: the executor reads [action_plan], then [original_objective], then
    the step at index 0. A missing key is a key error and an empty plan an
    index error, each raised before any remote graph is called; with both
    keys and a first step none of these is what it raises. *)
Theorem agent_executor_early_errors (st : State) :
  match action_plan st, original_objective st with
  | None, _ => agent_executor st = Raise (KeyError "action_plan")
  | Some _, None => agent_executor st = Raise (KeyError "original_objective")
  | Some [], Some _ => agent_executor st = Raise IndexError
  | Some (_ :: _), Some _ =>
      agent_executor st <> Raise IndexError /\
      forall key, agent_executor st <> Raise (KeyError key)
  end.
Proof.
  unfold agent_executor, getitem, index.
  destruct (action_plan st) as [[| first rest] |]; simpl; [| | done];
    destruct (original_objective st) as [objective |]; simpl; try done.
  unfold ask.
  repeat (destruct (String.eqb (subagent first) _); simpl; [by split |]).
  by split.
Qed.

(** X9: the replanner reads [original_objective] and then [action_plan];
    a missing key is a key error raised before the model is called, and
    with both keys the replanner calls the model once and then returns an
    update whatever the answer. *)
Theorem replanner_key_errors (st : State) :
  match original_objective st, action_plan st with
  | None, _ => replanner st = Raise (KeyError "original_objective")
  | Some _, None => replanner st = Raise (KeyError "action_plan")
  | Some _, Some _ =>
      exists msgs k,
        replanner st = Vis (invoke_ReplannerResponse msgs) k /\
        forall result, exists u, k result = Ret (Some u)
  end.
Proof.
  unfold replanner, getitem.
  destruct (original_objective st) as [objective |]; simpl; [| done].
  destruct (action_plan st) as [plan |]; simpl; [| done].
  eexists _, _. split; [reflexivity |]. intros result. simpl.
  destruct (action result); by eexists.
Qed.

(** ** The executor and the remote answer *)

Lemma agent_executor_shape st objective first rest g :
  original_objective st = Some objective ->
  action_plan st = Some (first :: rest) ->
  registry_entry (subagent first) = Some g ->
  exists k,
    agent_executor st
      = Vis (remote_invoke g
               [HumanMessage
                  (task_formatted_prompt
                     (String.concat LF (imap plan_line (first :: rest)))
                     (subagent first) (description first))]) k /\
    forall history,
      k history
      = match last history with
        | None => Raise IndexError
        | Some entry =>
            match dict_get entry "content" with
            | None => Raise (KeyError "content")
            | Some text =>
                Ret (Some (one_past_step (first_task_subagent_response first, text)))
            end
        end.
Proof.
  intros Hobj Hplan Hreg.
  unfold agent_executor, getitem, index. rewrite Hplan, Hobj. simpl.
  unfold registry_entry in Hreg.
  repeat (destruct (String.eqb (subagent first) _);
    [ injection Hreg as <-; simpl; eexists; split; [reflexivity |];
      intros history; cbv beta; unfold index_last, dict_getitem;
      destruct (last history) as [entry |]; simpl; [| reflexivity];
      destruct (dict_get entry "content"); reflexivity
    | ]).
  discriminate.
Qed.

(** X7: what a step records is decided by the last entry of the history
    the remote graph returns, and by nothing before it: an empty history is
    an index error, a last entry without the key [content] a key error, and
    otherwise the record pairs the summary of the first step with that
    content. *)
Theorem agent_executor_records_last_content st objective first rest g :
  original_objective st = Some objective ->
  action_plan st = Some (first :: rest) ->
  registry_entry (subagent first) = Some g ->
  exists msgs k,
    agent_executor st = Vis (remote_invoke g msgs) k /\
    k [] = Raise IndexError /\
    (forall earlier entry,
       dict_get entry "content" = None ->
       k (earlier ++ [entry])%list = Raise (KeyError "content")) /\
    (forall earlier entry text,
       dict_get entry "content" = Some text ->
       k (earlier ++ [entry])%list
       = Ret (Some (one_past_step
                      (subagent first
                       +:+ " executed logic to answer the following request from the planner/supervisor: "
                       +:+ description first, text)))).
Proof.
  intros Hobj Hplan Hreg.
  destruct (agent_executor_shape st objective first rest g Hobj Hplan Hreg)
    as (k & Hk & Hans).
  eexists _, k. split; [exact Hk |]. split; [by rewrite Hans |]. split.
  - intros earlier entry Hnone. by rewrite Hans, last_snoc, Hnone.
  - intros earlier entry text Hsome. by rewrite Hans, last_snoc, Hsome.
Qed.

Lemma agent_executor_records_last_content_witness :
  exists msgs k,
    agent_executor (Scenario.planned [Scenario.invoice_step])
      = Vis (remote_invoke invoice_information_remote_graph msgs) k /\
    k [] = Raise IndexError.
Proof.
  destruct (agent_executor_records_last_content
              (Scenario.planned [Scenario.invoice_step]) "what is my name?"
              Scenario.invoice_step [] invoice_information_remote_graph
              eq_refl eq_refl eq_refl) as (msgs & k & Hk & Hempty & _).
  exists msgs, k. split; [exact Hk | exact Hempty].
Defined.

(** X8: the tags for which the executor reaches a remote graph are exactly
    the three values the schema of [Step.subagent] admits: with both keys
    present and a first step, a remote call is made if and only if the tag
    of that step is one of them. *)
Theorem agent_executor_calls_iff_known_tag st objective first rest :
  original_objective st = Some objective ->
  action_plan st = Some (first :: rest) ->
  forall pick,
    calls pick (agent_executor st) <> [] <-> subagent first ∈ known_subagents.
Proof.
  intros Hobj Hplan pick.
  destruct (registry_entry (subagent first)) as [g |] eqn:Hreg.
  - destruct (agent_executor_shape st objective first rest g Hobj Hplan Hreg)
      as (k & -> & _).
    split; [| done]. intros _.
    destruct (decide (subagent first ∈ known_subagents)) as [Hin | Hnot]; [done |].
    apply registry_entry_None in Hnot. congruence.
  - assert (Hraise : agent_executor st = Raise (UnboundLocalError "final_response")).
    { unfold agent_executor, getitem, index. rewrite Hplan, Hobj. simpl.
      unfold registry_entry in Hreg.
      repeat (destruct (String.eqb (subagent first) _); [discriminate |]).
      reflexivity. }
    rewrite Hraise. simpl. apply registry_entry_None in Hreg. split; done.
Qed.

Lemma agent_executor_calls_iff_known_tag_witness :
  calls Scenario.pick (agent_executor (Scenario.planned [Scenario.rogue_step])) <> []
  <-> subagent Scenario.rogue_step ∈ known_subagents.
Proof.
  exact (agent_executor_calls_iff_known_tag
           (Scenario.planned [Scenario.rogue_step]) "what is my name?"
           Scenario.rogue_step [] eq_refl eq_refl Scenario.pick).
Defined.

(** ** Sessions: what stays fixed and how they end *)

Section SessionFacts.

Context {W : Type}.
Variable handler : forall X, Event X -> W -> option X * W.

Lemma graph_step_frame c c' ret :
  graph_step handler c = Next c' ret ->
  messages (state c') = messages (state c) /\
  (at_node c = N_agent_executor \/ at_node c = N_replanner ->
   original_objective (state c') = original_objective (state c) /\
   (at_node c' = N_agent_executor \/ at_node c' = N_replanner \/ at_node c' = END)) /\
  (at_node c <> N_replanner -> response (state c') = response (state c)).
Proof.
  intros Hstep.
  apply (graph_step_inv handler any_answer (answers_satisfy_any handler)) in Hstep
    as (Hst & Hnext & Hret).
  rewrite Hst. destruct (at_node c) eqn:Hn; simpl in Hnext.
  - subst ret. simpl. split; [done |]. split; [by intros [|] | done].
  - apply supervisor_returns in Hret as (first & result & _ & _ & ->).
    simpl. split; [done |]. split; [by intros [|] | done].
  - apply agent_executor_returns in Hret
      as (plan & objective & first & text & _ & _ & _ & ->).
    injection Hnext as <-. simpl. split; [done |]. split; [| done].
    intros _. split; [done | by right; left].
  - apply replanner_returns in Hret
      as (plan & objective & msgs & result & _ & _ & _ & ->).
    injection Hnext as <-. split; [by destruct (action result) |]. split; [| done].
    intros _. split; [by destruct (action result) |].
    destruct (should_end_range (state c')) as [-> | ->]; auto.
  - apply human_input_returns in Hret
      as (plan & objective & _ & _ & [-> | (msgs & result & _ & ->)]);
      simpl; (split; [done |]); (split; [by intros [|] | done]).
  - done.
Qed.

Lemma run_response_unset input w tr c :
  run handler (start input w) tr c ->
  at_node c <> END -> ~ response_set (state c).
Proof.
  induction 1 as [| tr c' c'' ret Hrun IH Hstep].
  - intros _ (r & [=] & _).
  - intros Hn Hset.
    pose proof (graph_step_frame _ _ _ Hstep) as (_ & _ & Hresp).
    apply (graph_step_inv handler any_answer (answers_satisfy_any handler)) in Hstep
      as (_ & Hnext & _).
    destruct (decide (at_node c' = N_replanner)) as [Hrp | Hrp].
    + rewrite Hrp in Hnext. injection Hnext as Hnext.
      apply should_end_END in Hset. congruence.
    + destruct (decide (at_node c' = END)) as [He | He].
      { rewrite He in Hnext. discriminate. }
      apply (IH He). destruct Hset as (r & Hr & Hne).
      exists r. by rewrite <- (Hresp Hrp).
Qed.

(** X10: an answer of the replanner whose text is empty does not end the
    session. [response] becomes the empty string, control goes back to the
    executor, and plan, objective and history are what they were, so the
    same first step is executed again. *)
Theorem empty_answer_reruns_executor c c' :
  at_node c = N_replanner ->
  graph_step handler c = Next c' (Some (sets_response "")) ->
  at_node c' = N_agent_executor /\
  response (state c') = Some "" /\
  action_plan (state c') = action_plan (state c) /\
  original_objective (state c') = original_objective (state c) /\
  past_steps (state c') = past_steps (state c).
Proof.
  intros Hn Hstep.
  apply (graph_step_inv handler any_answer (answers_satisfy_any handler)) in Hstep
    as (Hst & Hnext & _).
  rewrite Hn in Hnext. injection Hnext as Hnext. rewrite Hst in *. simpl in *.
  split; [by rewrite <- Hnext | done].
Qed.

(** X11: a session that has reached [END] got there from the replanner,
    whose last run returned the single key [response] with a non-empty
    text; that text is the value of [response] in the final state, so
    reading the key afterwards cannot fail. *)
Theorem session_end_carries_answer input w tr c :
  run handler (start input w) tr c ->
  at_node c = END ->
  exists tr' text,
    tr = (tr' ++ [(N_replanner, Some (sets_response text))])%list /\
    text <> "" /\
    response (state c) = Some text /\
    getitem "response" (response (state c)) = Ret text.
Proof.
  intros Hrun Hend. destruct Hrun as [| tr c' c'' ret Hrun Hstep]; [done |].
  pose proof (graph_step_inv handler any_answer (answers_satisfy_any handler)
                _ _ _ Hstep) as (Hst & Hnext & Hret).
  assert (Hrp : at_node c' = N_replanner).
  { rewrite Hend in Hnext. destruct (at_node c'); simpl in Hnext; done. }
  rewrite Hrp in *. injection Hnext as Hnext.
  assert (Hset : response_set (state c'')) by (apply should_end_END; congruence).
  apply replanner_returns in Hret
    as (plan & objective & msgs & result & _ & _ & _ & ->).
  destruct (action result) as [r | p].
  - exists tr, (Response_response r). split; [done |].
    destruct Hset as (t & Ht & Hne). rewrite Hst in Ht. simpl in Ht.
    injection Ht as <-. rewrite Hst. simpl. done.
  - exfalso. apply (run_response_unset _ _ _ _ Hrun); [by rewrite Hrp |].
    destruct Hset as (t & Ht & Hne). rewrite Hst in Ht. simpl in Ht. by exists t.
Qed.

(** X12: no node writes [messages]: along any stretch of a session the
    history is what it was. Once control has passed the review gate the
    objective is fixed as well, and control stays among the executor, the
    replanner and [END]. *)
Theorem history_and_objective_are_fixed c tr c' :
  run handler c tr c' ->
  messages (state c') = messages (state c) /\
  (at_node c = N_agent_executor \/ at_node c = N_replanner ->
   original_objective (state c') = original_objective (state c) /\
   (at_node c' = N_agent_executor \/ at_node c' = N_replanner \/ at_node c' = END)).
Proof.
  induction 1 as [| tr c' c'' ret Hrun (IHm & IHo) Hstep].
  - split; [done |]. intros [H | H]; auto.
  - pose proof (graph_step_frame _ _ _ Hstep) as (Hm & Ho & _).
    split; [congruence |]. intros Hc.
    destruct (IHo Hc) as (Hobj & [Hn | [Hn | Hn]]).
    + destruct Ho as (Ho1 & Ho2); [by left |]. split; [congruence | done].
    + destruct Ho as (Ho1 & Ho2); [by right |]. split; [congruence | done].
    + unfold graph_step in Hstep. by rewrite Hn in Hstep.
Qed.

End SessionFacts.

Lemma empty_answer_reruns_executor_witness :
  at_node (run_for Scenario.answers_nothing 5 (start Scenario.request 0)).2
  = N_agent_executor /\
  response (state (run_for Scenario.answers_nothing 5 (start Scenario.request 0)).2)
  = Some "".
Proof.
  destruct (empty_answer_reruns_executor Scenario.answers_nothing
              (run_for Scenario.answers_nothing 4 (start Scenario.request 0)).2
              (run_for Scenario.answers_nothing 5 (start Scenario.request 0)).2
              eq_refl eq_refl) as (Hn & Hr & _).
  split; [exact Hn | exact Hr].
Defined.

Lemma session_end_carries_answer_witness :
  exists text,
    response (state (run_for Scenario.approved 7 (start Scenario.request 0)).2)
    = Some text /\ text <> "".
Proof.
  destruct (session_end_carries_answer Scenario.approved Scenario.request 0 _ _
              (run_for_sound Scenario.approved 7 (start Scenario.request 0)) eq_refl)
    as (tr' & text & _ & Hne & Hr & _).
  exists text. split; [exact Hr | exact Hne].
Defined.

Lemma history_and_objective_are_fixed_witness :
  messages (state (run_for Scenario.approved 7 (start Scenario.request 0)).2)
  = Scenario.request.
Proof.
  exact (proj1 (history_and_objective_are_fixed Scenario.approved _ _ _
                  (run_for_sound Scenario.approved 7 (start Scenario.request 0)))).
Defined.

(** ** Sessions with collaborators that behave *)

Lemma registry_entry_Some tag g :
  registry_entry tag = Some g -> tag ∈ known_subagents.
Proof.
  intros Hreg. destruct (decide (tag ∈ known_subagents)) as [Hin | Hnot]; [done |].
  apply registry_entry_None in Hnot. congruence.
Qed.

Lemma known_tag_registered tag :
  tag ∈ known_subagents -> exists g, registry_entry tag = Some g.
Proof.
  intros Hin. destruct (registry_entry tag) as [g |] eqn:Hreg; [by exists g |].
  by apply registry_entry_None in Hreg.
Qed.

Section Progress.

Context {W : Type}.
Variable handler : forall X, Event X -> W -> option X * W.
Hypothesis answers : always_answers handler.
Hypothesis behaved : answers_satisfy handler well_behaved.

Lemma run_well_behaved_invariant input w tr c :
  run handler (start input w) tr c ->
  messages (state c) = input /\
  (at_node c <> START -> at_node c <> N_supervisor ->
   exists first rest objective,
     action_plan (state c) = Some (first :: rest) /\
     subagent first ∈ known_subagents /\
     original_objective (state c) = Some objective).
Proof.
  induction 1 as [| tr c' c'' ret Hrun (IHm & IHplan) Hstep].
  - simpl. done.
  - pose proof (graph_step_frame handler _ _ _ Hstep) as (Hm & _ & _).
    split; [congruence |].
    apply (graph_step_inv handler _ behaved) in Hstep as (Hst & Hnext & Hret).
    rewrite Hst. destruct (at_node c') eqn:Hn.
    + subst ret. by injection Hnext as <-.
    + apply supervisor_returns in Hret
        as (first & result & _ & (s & rest & Hs & Hin) & ->).
      intros _ _. simpl. rewrite Hs. by eexists _, _, _.
    + apply agent_executor_returns in Hret
        as (plan & objective & first & text & _ & _ & _ & ->).
      intros _ _. simpl. by apply IHplan.
    + apply replanner_returns in Hret
        as (plan & objective & msgs & result & _ & _ & Hok & ->).
      intros _ _. destruct (IHplan ltac:(done) ltac:(done))
        as (first & rest & obj & Hp & Hin & Ho).
      simpl in Hok. destruct (action result) as [r | p]; simpl; rewrite ?Hp, ?Ho.
      * by eexists _, _, _.
      * destruct Hok as (s & rest' & -> & Hin'). by eexists _, _, _.
    + destruct (IHplan ltac:(done) ltac:(done))
        as (first & rest & obj & Hp & Hin & Ho).
      apply human_input_returns in Hret
        as (plan & objective & _ & _ & [-> | (msgs & result & Hok & ->)]);
        intros _ _; simpl.
      * by eexists _, _, _.
      * destruct Hok as (s & rest' & -> & Hin'). by eexists _, _, _.
    + done.
Qed.

(** X13: when every call is answered, every plan has a first step with
    one of the three tags, every remote history ends in an entry with a
    content, and the session starts from a non-empty history, no node ever
    raises: from every configuration a session reaches, short of [END], the
    graph takes a next step. *)
Theorem session_never_fails input w tr c :
  input <> [] ->
  run handler (start input w) tr c ->
  at_node c <> END ->
  exists c' ret, graph_step handler c = Next c' ret.
Proof.
  intros Hinput Hrun Hn.
  apply run_well_behaved_invariant in Hrun as (Hm & Hplan).
  unfold graph_step. destruct (at_node c) eqn:Hnode; simpl.
  - by eexists _, _.
  - unfold supervisor, index_last. rewrite Hm.
    destruct (last_is_Some input Hinput) as [first ->]. simpl.
    match goal with
    | |- context [handler _ ?ev ?w0] =>
        destruct (answers _ ev w0) as (x & w' & ->)
    end.
    simpl. by eexists _, _.
  - destruct (Hplan ltac:(done) ltac:(done)) as (first & rest & obj & Hp & Hin & Ho).
    destruct (known_tag_registered _ Hin) as [g Hreg].
    destruct (agent_executor_shape _ _ _ _ _ Ho Hp Hreg) as (k & -> & Hk).
    cbn [interp].
    match goal with
    | |- context [handler _ ?ev ?w0] =>
        destruct (answers _ ev w0) as (history & w' & Hh)
    end.
    rewrite Hh. destruct (behaved _ _ _ _ _ Hh) as (entry & text & Hl & Hd).
    rewrite Hk, Hl, Hd. simpl. by eexists _, _.
  - destruct (Hplan ltac:(done) ltac:(done)) as (first & rest & obj & Hp & Hin & Ho).
    unfold replanner, getitem. rewrite Ho, Hp. simpl.
    match goal with
    | |- context [handler _ ?ev ?w0] =>
        destruct (answers _ ev w0) as (x & w' & ->)
    end.
    simpl. destruct (action x); simpl; by eexists _, _.
  - destruct (Hplan ltac:(done) ltac:(done)) as (first & rest & obj & Hp & Hin & Ho).
    unfold human_input, getitem. rewrite Hp. simpl.
    destruct (answers _ (interrupt (first :: rest)) (world c)) as (u & w' & ->).
    rewrite Ho. simpl. destruct (negb (String.eqb u "")); simpl.
    + match goal with
      | |- context [handler _ ?ev ?w0] =>
          destruct (answers _ ev w0) as (x & w'' & ->)
      end.
      simpl. by eexists _, _.
    + by eexists _, _.
  - done.
Qed.

End Progress.

Lemma approved_always_answers : always_answers Scenario.approved.
Proof. intros X ev w. destruct ev; simpl; by eexists _, _. Qed.

Lemma approved_well_behaved : answers_satisfy Scenario.approved well_behaved.
Proof.
  intros X ev w x w'. destruct ev; simpl; intros [= <- <-]; simpl; try done.
  - eexists _, _. split; [reflexivity |]. by eapply registry_entry_Some.
  - eexists _, _. split; [reflexivity |]. by eapply registry_entry_Some.
  - destruct (Nat.eqb w 0); simpl; [| done].
    eexists _, _. split; [reflexivity |]. by eapply registry_entry_Some.
  - destruct g; by eexists _, _.
Qed.

Lemma session_never_fails_witness :
  exists c' ret,
    graph_step Scenario.approved
      (run_for Scenario.approved 3 (start Scenario.request 0)).2 = Next c' ret.
Proof.
  apply (session_never_fails Scenario.approved approved_always_answers
           approved_well_behaved Scenario.request 0
           (run_for Scenario.approved 3 (start Scenario.request 0)).1).
  - discriminate.
  - apply run_for_sound.
  - discriminate.
Defined.

(** ** How often each node runs *)

Lemma node_runs_snoc n tr m ret :
  node_runs n (tr ++ [(m, ret)])
  = (node_runs n tr + if decide (m = n) then 1 else 0)%nat.
Proof.
  unfold node_runs. rewrite List.filter_app, length_app. simpl.
  destruct (decide (m = n)) as [-> | Hne].
  - by rewrite bool_decide_eq_true_2.
  - by rewrite bool_decide_eq_false_2.
Qed.

Section Counting.

Context {W : Type}.
Variable handler : forall X, Event X -> W -> option X * W.

Lemma run_node_runs input w tr c :
  run handler (start input w) tr c ->
  let b := node_runs START tr in
  let s := node_runs N_supervisor tr in
  let h := node_runs N_human_input tr in
  let e := node_runs N_agent_executor tr in
  let r := node_runs N_replanner tr in
  node_runs END tr = 0 /\
  match at_node c with
  | START => b = 0 /\ s = 0 /\ h = 0 /\ e = 0 /\ r = 0
  | N_supervisor => b = 1 /\ s = 0 /\ h = 0 /\ e = 0 /\ r = 0
  | N_human_input => b = 1 /\ s = 1 /\ h = 0 /\ e = 0 /\ r = 0
  | N_agent_executor => b = 1 /\ s = 1 /\ h = 1 /\ e = r
  | N_replanner => b = 1 /\ s = 1 /\ h = 1 /\ e = S r
  | END => b = 1 /\ s = 1 /\ h = 1 /\ e = r /\ 1 <= e
  end.
Proof.
  induction 1 as [| tr c' c'' ret Hrun IH Hstep]; [done |].
  apply (graph_step_inv handler any_answer (answers_satisfy_any handler)) in Hstep
    as (_ & Hnext & _).
  simpl in IH. cbv zeta. rewrite !node_runs_snoc.
  destruct (at_node c') eqn:Hn; simpl in Hnext; try discriminate;
    injection Hnext as Hnext.
  - rewrite <- Hnext. simpl. lia.
  - rewrite <- Hnext. simpl. lia.
  - rewrite <- Hnext. simpl. lia.
  - rewrite <- Hnext.
    destruct (should_end_range (state c'')) as [-> | ->]; simpl; lia.
  - rewrite <- Hnext. simpl. lia.
Qed.

(** X14: in one session the supervisor and the review gate each run at
    most once, so the human is asked once; the executor and the replanner
    alternate, the executor being at most one run ahead; and a session that
    has ended ran the supervisor and the gate exactly once and the executor
    as often as the replanner, at least once. *)
Theorem node_runs_per_session input w tr c :
  run handler (start input w) tr c ->
  node_runs N_supervisor tr <= 1 /\
  node_runs N_human_input tr <= 1 /\
  node_runs N_replanner tr <= node_runs N_agent_executor tr /\
  node_runs N_agent_executor tr <= S (node_runs N_replanner tr) /\
  (at_node c = END ->
   node_runs N_supervisor tr = 1 /\ node_runs N_human_input tr = 1 /\
   node_runs N_agent_executor tr = node_runs N_replanner tr /\
   1 <= node_runs N_agent_executor tr).
Proof.
  intros Hrun. pose proof (run_node_runs _ _ _ _ Hrun) as (_ & Hcount).
  simpl in Hcount.
  destruct (at_node c); repeat split; try lia; try done.
Qed.

(** X15: the loop has no bound of its own. As long as the replanner is
    never given a final answer with a non-empty text, no session reaches
    [END], however long it runs. *)
Theorem only_an_answer_ends_the_loop input w tr c :
  answers_satisfy handler never_concludes ->
  run handler (start input w) tr c ->
  at_node c <> END.
Proof.
  intros Hnever Hrun Hend.
  destruct Hrun as [| tr c' c'' ret Hrun Hstep]; [done |].
  pose proof (graph_step_inv handler _ Hnever _ _ _ Hstep) as (Hst & Hnext & Hret).
  assert (Hrp : at_node c' = N_replanner).
  { rewrite Hend in Hnext. destruct (at_node c'); simpl in Hnext; done. }
  rewrite Hrp in *. injection Hnext as Hnext.
  assert (Hset : response_set (state c'')) by (apply should_end_END; congruence).
  apply replanner_returns in Hret
    as (plan & objective & msgs & result & _ & _ & Hok & ->).
  destruct Hset as (t & Ht & Hne). rewrite Hst in Ht. simpl in Hok.
  destruct (action result) as [r | p]; simpl in Ht.
  - injection Ht as <-. done.
  - apply (run_response_unset handler _ _ _ _ Hrun); [by rewrite Hrp |]. by exists t.
Qed.

End Counting.

Lemma node_runs_per_session_witness :
  node_runs N_human_input (run_for Scenario.approved 7 (start Scenario.request 0)).1 <= 1.
Proof.
  exact (proj1 (proj2
    (node_runs_per_session Scenario.approved Scenario.request 0 _ _
       (run_for_sound Scenario.approved 7 (start Scenario.request 0))))).
Defined.

Lemma answers_nothing_never_concludes :
  answers_satisfy Scenario.answers_nothing never_concludes.
Proof.
  intros X ev w x w'. destruct ev; simpl; try done. by intros [= <- <-].
Qed.

Lemma only_an_answer_ends_the_loop_witness :
  at_node (run_for Scenario.answers_nothing 40 (start Scenario.request 0)).2 <> END.
Proof.
  exact (only_an_answer_ends_the_loop Scenario.answers_nothing Scenario.request 0 _ _
           answers_nothing_never_concludes
           (run_for_sound Scenario.answers_nothing 40 (start Scenario.request 0))).
Defined.

(** ** Where the records of the history come from *)

Lemma agent_executor_unregistered st objective first rest :
  original_objective st = Some objective ->
  action_plan st = Some (first :: rest) ->
  registry_entry (subagent first) = None ->
  agent_executor st = Raise (UnboundLocalError "final_response").
Proof.
  intros Hobj Hplan Hreg.
  unfold agent_executor, getitem, index. rewrite Hplan, Hobj. simpl.
  unfold registry_entry in Hreg.
  repeat (destruct (String.eqb (subagent first) _); [discriminate |]).
  reflexivity.
Qed.

Lemma agent_executor_returns_registered ok st ret :
  returns_with ok (agent_executor st) ret ->
  exists first rest g text,
    action_plan st = Some (first :: rest) /\
    registry_entry (subagent first) = Some g /\
    ret = Some (one_past_step (first_task_subagent_response first, text)).
Proof.
  intros Hret.
  pose proof (agent_executor_returns _ _ _ Hret)
    as (plan & objective & first & text & Hplan & Hobj & Hfirst & _).
  destruct plan as [| s rest]; [done |]. injection Hfirst as ->.
  destruct (registry_entry (subagent first)) as [g |] eqn:Hreg.
  - destruct (agent_executor_shape _ _ _ _ _ Hobj Hplan Hreg) as (k & Hk & Hans).
    rewrite Hk in Hret. simpl in Hret. destruct Hret as (history & _ & Hret).
    rewrite Hans in Hret.
    destruct (last history) as [entry |]; [| done].
    destruct (dict_get entry "content") as [c |]; [| done].
    simpl in Hret. by exists first, rest, g, c.
  - by rewrite (agent_executor_unregistered _ _ _ _ Hobj Hplan Hreg) in Hret.
Qed.

(** X16: whatever the model plans, the history of a session only ever
    holds records of steps that one of the three remote graphs answered:
    each record of [past_steps] pairs the summary of a step whose tag is one
    of the three with a text. *)
Theorem past_steps_come_from_registered_agents
  {W : Type} (handler : forall X, Event X -> W -> option X * W) input w tr c :
  run handler (start input w) tr c ->
  Forall (fun rec : ExecutionRecord =>
            exists step,
              subagent step ∈ known_subagents /\
              rec.1 = subagent step
                      +:+ " executed logic to answer the following request from the planner/supervisor: "
                      +:+ description step)
         (past_steps (state c)).
Proof.
  induction 1 as [| tr c' c'' ret Hrun IH Hstep]; [by simpl |].
  apply (graph_step_inv handler any_answer (answers_satisfy_any handler)) in Hstep
    as (Hst & _ & Hret).
  rewrite Hst. destruct (at_node c') eqn:Hn.
  - by subst ret.
  - apply supervisor_returns in Hret as (first & result & _ & _ & ->). by simpl.
  - apply agent_executor_returns_registered in Hret
      as (first & rest & g & text & _ & Hreg & ->).
    simpl. apply Forall_app. split; [exact IH |]. apply Forall_singleton.
    exists first. split; [by eapply registry_entry_Some | done].
  - apply replanner_returns in Hret
      as (plan & objective & msgs & result & _ & _ & _ & ->).
    by destruct (action result).
  - apply human_input_returns in Hret
      as (plan & objective & _ & _ & [-> | (msgs & result & _ & ->)]); by simpl.
  - done.
Qed.

Lemma past_steps_come_from_registered_agents_witness :
  Forall (fun rec : ExecutionRecord =>
            exists step,
              subagent step ∈ known_subagents /\
              rec.1 = subagent step
                      +:+ " executed logic to answer the following request from the planner/supervisor: "
                      +:+ description step)
         (past_steps (state (run_for Scenario.approved 7 (start Scenario.request 0)).2)).
Proof.
  exact (past_steps_come_from_registered_agents Scenario.approved Scenario.request 0 _ _
           (run_for_sound Scenario.approved 7 (start Scenario.request 0))).
Defined.
